(** * klasse-e: LaTeX conversion scripts for an exam question catalogue

    A shallow embedding of the three Node.js scripts of the repository

    - [konvertieren.js]   (module [Konvertieren]): flattens a nested JSON
      question bank and writes one LaTeX fragment per question;
    - [50ohm_convert.js]  (module [Ohm50]): groups questions by
      chapter/section and writes one LaTeX file per section;
    - [svg_dimension_parser.js] (module [Svg]): reads width and height off
      the root tag of an SVG document;

    followed by the properties of these programs.

    Conventions.  A JavaScript string is a [string]: one [ascii] per code
    unit, so the model covers texts whose code units are below 256.  Every
    character the scripts test for is ASCII.  A number is an integer [Z]
    (rendered in decimal, as JavaScript does below 10^21).  [undefined] is
    the [None] of an [option json]. *)

From Stdlib Require Import Ascii String ZArith List Lia.
From stdpp Require Import base option list strings pretty gmap.

Local Open Scope string_scope.
Set Warnings "-register-all".
#[local] Arguments String.append !_ _ / : simpl nomatch.

(** ** Characters that cannot be typed inside a string literal *)

Definition dquote : ascii := "034"%char.
Definition squote : ascii := "039"%char.
Definition newline : ascii := "010"%char.
Definition nl : string := String newline "".

(** ** JSON values, as [JSON.parse] hands them to the scripts *)

Module Json.

(** An object is the list of its own properties in the order
    [Object.entries] enumerates them; property names are unique. *)
Inductive json : Type :=
| JNull
| JBool (b : bool)
| JNum (n : Z)
| JStr (s : string)
| JArr (elems : list json)
| JObj (entries : list (string * json)).

(** Truthiness, as used by [!x], [x || y] and [if (x)]. *)
Definition truthy (v : option json) : bool :=
  match v with
  | None => false
  | Some JNull => false
  | Some (JBool b) => b
  | Some (JNum n) => negb (n =? 0)%Z
  | Some (JStr s) => negb (String.eqb s "")
  | Some (JArr _) => true
  | Some (JObj _) => true
  end.

(** [Array.prototype.join(",")] over already rendered elements. *)
Fixpoint join_comma (parts : list string) : string :=
  match parts with
  | [] => ""
  | [p] => p
  | p :: rest => p +:+ "," +:+ join_comma rest
  end.

(** [String(v)] / the conversion a template literal applies.  An array
    renders its elements separated by commas, [null] elements as the
    empty text; a plain object renders as [[object Object]]. *)
Fixpoint to_string (v : json) : string :=
  match v with
  | JNull => "null"
  | JBool true => "true"
  | JBool false => "false"
  | JNum n => pretty n
  | JStr s => s
  | JArr elems =>
      join_comma (List.map (fun e => match e with
                                     | JNull => ""
                                     | _ => to_string e
                                     end) elems)
  | JObj _ => "[object Object]"
  end.

(** [`${v}`] *)
Definition template (v : option json) : string :=
  match v with
  | None => "undefined"
  | Some j => to_string j
  end.

(** Own property lookup in an entries list. *)
Fixpoint lookup_entry (k : string) (es : list (string * json)) : option json :=
  match es with
  | [] => None
  | (k', v) :: es' => if String.eqb k' k then Some v else lookup_entry k es'
  end.

(** [v.k] for one of the record field names the scripts read
    ([number], [question], [chapter], ...): [None] is the [TypeError]
    of reading a property of [null]; [Some None] is [undefined].
    Arrays, strings, numbers and booleans have no property of these
    names. *)
Definition get_prop (v : json) (k : string) : option (option json) :=
  match v with
  | JNull => None
  | JObj es => Some (lookup_entry k es)
  | _ => Some None
  end.

(** The key [Object.entries] gives to the [i]-th element of an array. *)
Definition index_key (i : nat) : string := pretty i.

(** One text per character: what [...s] yields for a string [s]. *)
Fixpoint chars (s : string) : list json :=
  match s with
  | EmptyString => []
  | String c s' => JStr (String c "") :: chars s'
  end.

(** The iteration [...value] performs: [None] is the [TypeError] raised
    for a value that is not iterable. *)
Definition spread (value : json) : option (list json) :=
  match value with
  | JArr elems => Some elems
  | JStr s => Some (chars s)
  | _ => None
  end.

End Json.
Export Json.

(** ** The Node.js environment and the effects of a script *)

Module Node.

(** What a library call gives back: a value, or the [message] of the
    error it throws. *)
Inductive answer (A : Type) : Type :=
| Ok (a : A)
| Raise (message : string).
Arguments Ok {A} a.
Arguments Raise {A} message.

(** The calls into [fs], [path] and [JSON] the scripts make.  [Fs] is
    the state of the file system; nothing is assumed about it. *)
Class Env (Fs : Type) : Type := {
  existsSync : string -> Fs -> bool;
  mkdirSync : string -> Fs -> answer unit * Fs;
  readFileSync : string -> Fs -> answer string;
  writeFileSync : string -> string -> Fs -> answer unit * Fs;
  path_join : string -> string -> string;
  JSON_parse : string -> answer json
}.

Section Effects.
Context {Fs : Type} {E : Type}.

(** The file system, the console lines printed so far, and the
    history of the [writeFileSync] calls made so far (path, data). *)
Record world : Type := World {
  disk : Fs;
  console : list E;
  written : list (string * string)
}.

(** A run either returns or ends in an uncaught exception. *)
Inductive outcome (A : Type) : Type :=
| Returned (a : A) (w : world)
| Thrown (message : string) (w : world).

Definition M (A : Type) : Type := world -> outcome A.

(** The world a run ends in. *)
Definition final {A} (o : outcome A) : world :=
  match o with
  | Returned _ _ w => w
  | Thrown _ _ w => w
  end.

Definition ret {A} (a : A) : M A := fun w => Returned A a w.

Definition bind {A B} (m : M A) (k : A -> M B) : M B :=
  fun w =>
    match m w with
    | Returned _ a w' => k a w'
    | Thrown _ e w' => Thrown B e w'
    end.

Definition throw {A} (message : string) : M A :=
  fun w => Thrown A message w.

(** [try { m } catch (error) { h error.message }] *)
Definition try_catch {A} (m : M A) (h : string -> M A) : M A :=
  fun w =>
    match m w with
    | Returned _ a w' => Returned A a w'
    | Thrown _ e w' => h e w'
    end.

(** A pure step that may raise a [TypeError]. *)
Definition or_type_error {A} (o : option A) : M A :=
  match o with
  | Some a => ret a
  | None => throw "TypeError"
  end.

Definition of_answer {A} (r : answer A) : M A :=
  match r with
  | Ok a => ret a
  | Raise e => throw e
  end.

Definition print (e : E) : M unit :=
  fun w => Returned unit tt
             (World (disk w) (console w ++ [e])%list (written w)).

Context `{!Env Fs}.

Definition fs_existsSync (p : string) : M bool :=
  fun w => Returned bool (existsSync p (disk w)) w.

Definition fs_mkdirSync (p : string) : M unit :=
  fun w =>
    let '(r, d) := mkdirSync p (disk w) in
    of_answer r (World d (console w) (written w)).

Definition fs_readFileSync (p : string) : M string :=
  fun w => of_answer (readFileSync p (disk w)) w.

Definition fs_writeFileSync (p data : string) : M unit :=
  fun w =>
    let '(r, d) := writeFileSync p data (disk w) in
    of_answer r (World d (console w) (written w ++ [(p, data)])%list).

(** [xs.forEach(f)] *)
Fixpoint forEach {A} (f : A -> M unit) (xs : list A) : M unit :=
  match xs with
  | [] => ret tt
  | x :: xs' => bind (f x) (fun _ => forEach f xs')
  end.

(** A loop that carries a local variable of the enclosing function. *)
Fixpoint forEach_with {A S} (f : A -> S -> M S) (xs : list A) (s : S)
    : M S :=
  match xs with
  | [] => ret s
  | x :: xs' => bind (f x s) (fun s' => forEach_with f xs' s')
  end.

End Effects.

Arguments world : clear implicits.
Arguments outcome : clear implicits.
Arguments M : clear implicits.
Arguments Returned {Fs E A} a w.
Arguments Thrown {Fs E A} message w.

Declare Scope eff_scope.
Delimit Scope eff_scope with eff.
Notation "x <- m ;; k" := (bind m (fun x => k))
  (at level 100, m at next level, right associativity) : eff_scope.
Notation "m ;;; k" := (bind m (fun _ => k))
  (at level 100, right associativity) : eff_scope.

End Node.
Export Node.

(** JavaScript white space ([String.prototype.trim], [\s]) among the code
    units below 256. *)
Definition is_space (c : ascii) : bool :=
  match nat_of_ascii c with
  | 9 | 10 | 11 | 12 | 13 | 32 | 160 => true
  | _ => false
  end%nat.

Fixpoint trimStart (s : string) : string :=
  match s with
  | EmptyString => EmptyString
  | String c s' => if is_space c then trimStart s' else s
  end.

Fixpoint trimEnd (s : string) : string :=
  match s with
  | EmptyString => EmptyString
  | String c s' =>
      match trimEnd s' with
      | EmptyString => if is_space c then EmptyString else String c EmptyString
      | t => String c t
      end
  end.

Definition trim (s : string) : string := trimEnd (trimStart s).

(** [c] occurs in [s]. *)
Fixpoint occurs (c : ascii) (s : string) : bool :=
  match s with
  | EmptyString => false
  | String a s' => Ascii.eqb a c || occurs c s'
  end.

(** ** konvertieren.js *)

Module Konvertieren.

(** [s.replace(/c/g, rep)] for a single literal character [c] and a
    replacement text without [$]. *)
Fixpoint replace_all (c : ascii) (rep : string) (s : string) : string :=
  match s with
  | EmptyString => EmptyString
  | String a s' =>
      if Ascii.eqb a c then rep +:+ replace_all c rep s'
      else String a (replace_all c rep s')
  end.

Definition escape (text : option json) : string :=
  match text with
  | Some (JStr text) =>
      let escapedText := text in
      let escapedText := replace_all "&" "\&" escapedText in
      let escapedText := replace_all "%" "\%" escapedText in
      let escapedText := replace_all "#" "\#" escapedText in
      let escapedText := replace_all "_" "\_" escapedText in
      let escapedText := replace_all "{" "\{" escapedText in
      let escapedText := replace_all "}" "\}" escapedText in
      let escapedText := replace_all "~" "\textasciitilde{}" escapedText in
      let escapedText := replace_all "^" "\textasciicircum{}" escapedText in
      let escapedText :=
        replace_all dquote (String dquote (String dquote "")) escapedText in
      escapedText
  | _ => ""
  end.

(** The callback of [Object.entries(jsonObj).forEach] in [traverse];
    [allQuestions] is threaded through, [None] is an exception. *)
Definition visit (traverse : json -> list json -> option (list json))
    (key : string) (value : json) (allQuestions : list json)
    : option (list json) :=
  if String.eqb key "questions" then
    match spread value with
    | Some items => Some (allQuestions ++ items)%list
    | None => None
    end
  else traverse value allQuestions.

Fixpoint traverse (jsonObj : json) (allQuestions : list json)
    : option (list json) :=
  match jsonObj with
  | JObj entries =>
      (fix forEach (es : list (string * json)) (acc : list json) :=
         match es with
         | [] => Some acc
         | (key, value) :: es' =>
             match visit traverse key value acc with
             | Some acc' => forEach es' acc'
             | None => None
             end
         end) entries allQuestions
  | JArr elems =>
      (fix forEach (i : nat) (es : list json) (acc : list json) :=
         match es with
         | [] => Some acc
         | value :: es' =>
             match visit traverse (index_key i) value acc with
             | Some acc' => forEach (S i) es' acc'
             | None => None
             end
         end) 0%nat elems allQuestions
  | _ => Some allQuestions
  end.

(** The two loops of [traverse], named. *)
Fixpoint entriesLoop (es : list (string * json)) (acc : list json)
    : option (list json) :=
  match es with
  | [] => Some acc
  | (key, value) :: es' =>
      match visit traverse key value acc with
      | Some acc' => entriesLoop es' acc'
      | None => None
      end
  end.

Fixpoint elemsLoop (i : nat) (es : list json) (acc : list json)
    : option (list json) :=
  match es with
  | [] => Some acc
  | value :: es' =>
      match visit traverse (index_key i) value acc with
      | Some acc' => elemsLoop (S i) es' acc'
      | None => None
      end
  end.

(** Step 3 of [main]: the extraction started on an empty result. *)
Definition extract (allQuestionsRaw : json) : option (list json) :=
  traverse allQuestionsRaw [].

Definition inputFile {Fs : Type} `{!Env Fs} : string :=
  path_join "Fragen" "fragenkatalog3b.json".
Definition outputDir : string := "tex_fragen".

(** The console lines of the script, one constructor per call site. *)
Inductive event : Type :=
| LogDirCreated (dir : string)
| ErrReadInput (file : string)
| ErrMessage (message : string)
| LogFound (count : nat)
| ErrWrite (filePath message : string)
| LogDone (filesCreated : nat).

Definition bool_text (b : bool) : string := if b then "true" else "false".

(** The template literal of the fragment, before [trim]. *)
Definition latexFragment (number question answer_a answer_b answer_c
    answer_d : option json) (hasPicture hasPictureA : bool) : string :=
  nl +:+ "\frage{" +:+ escape number +:+ "}" +:+ nl
  +:+ "    {" +:+ escape question +:+ "}" +:+ nl
  +:+ "    {" +:+ escape answer_a +:+ "}" +:+ nl
  +:+ "    {" +:+ escape answer_b +:+ "}" +:+ nl
  +:+ "    {" +:+ escape answer_c +:+ "}" +:+ nl
  +:+ "    {" +:+ escape answer_d +:+ "}" +:+ nl
  +:+ "    {" +:+ bool_text hasPicture +:+ "}{"
  +:+ bool_text hasPictureA +:+ "}" +:+ nl.

Section Main.
Context {Fs : Type} `{!Env Fs}.
Local Open Scope eff_scope.

(** What the callback of [allQuestions.forEach] computes before its
    [try]: [filePath] and the trimmed fragment.  [None] is the
    [TypeError] of reading a property of [null]. *)
Definition questionFile (question : json) : option (string * string) :=
  picture_question ← get_prop question "picture_question";
  let hasPicture := truthy picture_question in
  picture_a ← get_prop question "picture_a";
  let hasPictureA := truthy picture_a in
  number ← get_prop question "number";
  text ← get_prop question "question";
  answer_a ← get_prop question "answer_a";
  answer_b ← get_prop question "answer_b";
  answer_c ← get_prop question "answer_c";
  answer_d ← get_prop question "answer_d";
  let fragment :=
    latexFragment number text answer_a answer_b answer_c answer_d
      hasPicture hasPictureA in
  let fileName := template number +:+ ".tex" in
  let filePath := path_join outputDir fileName in
  Some (filePath, trim fragment).

(** The callback of [allQuestions.forEach]; [filesCreated] is the
    counter of [main]. *)
Definition writeQuestion (question : json) (filesCreated : nat)
    : M Fs event nat :=
  file <- or_type_error (questionFile question) ;;
  try_catch
    (fs_writeFileSync (fst file) (snd file) ;;;
     ret (S filesCreated))
    (fun message =>
       print (ErrWrite (fst file) message) ;;;
       ret filesCreated).

Definition main : M Fs event unit :=
  present <- fs_existsSync outputDir ;;
  (if negb present
   then fs_mkdirSync outputDir ;;; print (LogDirCreated outputDir)
   else ret tt) ;;;
  parsed <- try_catch
    (fileContent <- fs_readFileSync inputFile ;;
     allQuestionsRaw <- of_answer (JSON_parse fileContent) ;;
     ret (Some allQuestionsRaw))
    (fun message =>
       print (ErrReadInput inputFile) ;;;
       print (ErrMessage message) ;;;
       ret None) ;;
  match parsed with
  | None => ret tt
  | Some allQuestionsRaw =>
      allQuestions <- or_type_error (extract allQuestionsRaw) ;;
      print (LogFound (length allQuestions)) ;;;
      filesCreated <- forEach_with writeQuestion allQuestions 0%nat ;;
      print (LogDone filesCreated)
  end.

End Main.

End Konvertieren.

(** ** 50ohm_convert.js *)

Module Ohm50.

Record job : Type := Job { jsonPath : string; outputDir : string }.

Definition conversionJobs : list job :=
  [ Job "50Ohm/50Ohm_NE.json" "tex_sections" ].

Definition FRAGEN_SUBDIR : string := "tex_fragen".

(** The console lines of the script, one constructor per call site. *)
Inductive event : Type :=
| LogDirCreated (dirPath : string)
| LogJob (jsonPath outputDir : string)
| ErrRead (jsonPath message : string)
| ErrSchema (jsonPath : string)
| LogGenerated (generatedFilesCount : nat).

(** A loop over an array whose body may raise and updates a local. *)
Fixpoint fold_raise {A S : Type} (f : S -> A -> option S) (xs : list A)
    (s : S) : option S :=
  match xs with
  | [] => Some s
  | x :: xs' =>
      match f s x with
      | Some s' => fold_raise f xs' s'
      | None => None
      end
  end.

(** The body of the [forEach] in [generateLatexContent]. *)
Definition appendInput (content : string) (frage : json) : option string :=
  frageID ← get_prop frage "number";
  let inputCommand :=
    "\input{" +:+ FRAGEN_SUBDIR +:+ "/" +:+ template frageID +:+ ".tex}" in
  Some (content +:+ "    " +:+ inputCommand +:+ nl).

Definition generateLatexContent (fragenListe : list json) : option string :=
  let content := "\begin{description}" +:+ nl in
  content ← fold_raise appendInput fragenListe content;
  Some (content +:+ "\end{description}" +:+ nl).

(** [`${r.chapter}-${r.section}`], the key of lines 89 and 102. *)
Definition keyOf (r : json) : option string :=
  chapter ← get_prop r "chapter";
  section ← get_prop r "section";
  Some (template chapter +:+ "-" +:+ template section).

(** The body of [questions.forEach]: the array stored under the key is
    the one [push] extends. *)
Definition addQuestion (sectionQuestionsMap : gmap string (list json))
    (q : json) : option (gmap string (list json)) :=
  key ← keyOf q;
  let sectionQuestionsMap :=
    if bool_decide (is_Some (sectionQuestionsMap !! key))
    then sectionQuestionsMap
    else <[key := []]> sectionQuestionsMap in
  fragen ← sectionQuestionsMap !! key;
  Some (<[key := (fragen ++ [q])%list]> sectionQuestionsMap).

Definition groupQuestions (questions : list json)
    : option (gmap string (list json)) :=
  fold_raise addQuestion questions ∅.

(** [v.forEach] exists only on arrays. *)
Definition as_array (v : option json) : option (list json) :=
  match v with
  | Some (JArr elems) => Some elems
  | _ => None
  end.

Section Job.
Context {Fs : Type} `{!Env Fs}.
Local Open Scope eff_scope.

(** What the body of [sections.forEach] computes between its test and
    its write, for a section with questions: [filePath] and
    [finalContent].  [None] is the [TypeError] of reading a property
    of [null]. *)
Definition sectionFile (outputDir : string) (sektion : json)
    (fragenListe : list json) : option (string * string) :=
  chapter ← get_prop sektion "chapter";
  section ← get_prop sektion "section";
  let sektionID := template chapter +:+ "S" +:+ template section in
  sektionTitle ← get_prop sektion "section_txt";
  let fileName := sektionID +:+ ".tex" in
  let filePath := path_join outputDir fileName in
  latexContent ← generateLatexContent fragenListe;
  let fileHeader :=
    "% Kapitel " +:+ template chapter +:+ ", Sektion "
    +:+ template section +:+ ": " +:+ template sektionTitle
    +:+ nl +:+ nl in
  let finalContent := fileHeader +:+ latexContent in
  Some (filePath, finalContent).

Definition setupOutputDirectory (dirPath : string) : M Fs event unit :=
  present <- fs_existsSync dirPath ;;
  if negb present
  then fs_mkdirSync dirPath ;;; print (LogDirCreated dirPath)
  else ret tt.

(** The body of [sections.forEach]; [generatedFilesCount] is the
    counter of [processConversionJob]. *)
Definition writeSection (outputDir : string)
    (sectionQuestionsMap : gmap string (list json))
    (sektion : json) (generatedFilesCount : nat) : M Fs event nat :=
  key <- or_type_error (keyOf sektion) ;;
  match sectionQuestionsMap !! key with
  | Some fragenListe =>
      if (0 <? length fragenListe)%nat then
        file <- or_type_error (sectionFile outputDir sektion fragenListe) ;;
        fs_writeFileSync (fst file) (snd file) ;;;
        ret (S generatedFilesCount)
      else ret generatedFilesCount
  | None => ret generatedFilesCount
  end.

(** Steps 4 and 5 of [processConversionJob]: group the questions,
    then write the sections; the result is [generatedFilesCount]. *)
Definition generateSections (outputDir : string)
    (sections questions : option json) : M Fs event nat :=
  questions <- or_type_error (as_array questions) ;;
  sectionQuestionsMap <- or_type_error (groupQuestions questions) ;;
  sections <- or_type_error (as_array sections) ;;
  forEach_with (writeSection outputDir sectionQuestionsMap) sections 0%nat.

Definition processConversionJob (j : job) : M Fs event unit :=
  let jsonPath := jsonPath j in
  let outputDir := outputDir j in
  print (LogJob jsonPath outputDir) ;;;
  setupOutputDirectory outputDir ;;;
  rawData <- try_catch
    (rawData <- fs_readFileSync jsonPath ;; ret (Some rawData))
    (fun message => print (ErrRead jsonPath message) ;;; ret None) ;;
  match rawData with
  | None => ret tt
  | Some rawData =>
      data <- of_answer (JSON_parse rawData) ;;
      sections <- or_type_error (get_prop data "sections") ;;
      questions <- or_type_error (get_prop data "questions") ;;
      if negb (truthy sections) || negb (truthy questions) then
        print (ErrSchema jsonPath)
      else
        generatedFilesCount <-
          generateSections outputDir sections questions ;;
        print (LogGenerated generatedFilesCount)
  end.

(** The script: [conversionJobs.forEach(processConversionJob)]. *)
Definition script : M Fs event unit :=
  forEach processConversionJob conversionJobs.

End Job.

End Ohm50.

(** ** svg_dimension_parser.js *)

Module Svg.

(** *** The regular expressions, as matchers

    Every pattern of the script is a literal followed by greedy runs
    whose class excludes the character that must follow, so trying the
    longest run is all a backtracking matcher can do; a search tries
    the start positions from left to right. *)

(** Case folding of the [i] flag: only ASCII letters fold onto ASCII
    letters. *)
Definition fold_case (c : ascii) : ascii :=
  let n := nat_of_ascii c in
  if ((65 <=? n) && (n <=? 90))%nat then ascii_of_nat (n + 32) else c.

Definition eq_ci (p c : ascii) : bool :=
  Ascii.eqb (fold_case p) (fold_case c).

(** Match the literal [pat] at the start of [s], ignoring case: the
    matched text and the rest. *)
Fixpoint literal_ci (pat s : string) : option (string * string) :=
  match pat with
  | EmptyString => Some (EmptyString, s)
  | String p pat' =>
      match s with
      | EmptyString => None
      | String c s' =>
          if eq_ci p c then
            match literal_ci pat' s' with
            | Some (m, rest) => Some (String c m, rest)
            | None => None
            end
          else None
      end
  end.

(** The longest prefix of characters satisfying [keep], and the rest. *)
Fixpoint span (keep : ascii -> bool) (s : string) : string * string :=
  match s with
  | EmptyString => (EmptyString, EmptyString)
  | String c s' =>
      if keep c then
        let '(m, rest) := span keep s' in (String c m, rest)
      else (EmptyString, s)
  end.

Definition is_quote (c : ascii) : bool :=
  Ascii.eqb c dquote || Ascii.eqb c squote.

(** The pattern of [extractAttribute] at the start of [s]: the name,
    optional white space around [=], an opening quote of either kind,
    the longest run without quotes (capture 1) and a closing quote of
    either kind. *)
Definition attribute_here (name s : string) : option string :=
  match literal_ci name s with
  | None => None
  | Some (_, s) =>
      match snd (span is_space s) with
      | String "=" s =>
          match snd (span is_space s) with
          | String q s =>
              if is_quote q then
                let '(value, s) := span (fun c => negb (is_quote c)) s in
                match s with
                | String q' _ => if is_quote q' then Some value else None
                | EmptyString => None
                end
              else None
          | EmptyString => None
          end
      | _ => None
      end
  end.

(** [attributeName] is one of the words the script passes ([width],
    [height], [viewBox]): a name without pattern metacharacters. *)
Fixpoint extractAttribute (tagString attributeName : string)
    : option string :=
  match attribute_here attributeName tagString with
  | Some value => Some value
  | None =>
      match tagString with
      | EmptyString => None
      | String _ rest => extractAttribute rest attributeName
      end
  end.

(** [<svg[^>]*>] at the start of [s]: the matched text. *)
Definition svg_tag_here (s : string) : option string :=
  match literal_ci "<svg" s with
  | None => None
  | Some (open, s) =>
      let '(attrs, s) := span (fun c => negb (Ascii.eqb c ">")) s in
      match s with
      | String ">" _ => Some (open +:+ attrs +:+ ">")
      | _ => None
      end
  end.

(** [svgContent.match(/<svg[^>]*>/i)] *)
Fixpoint svgMatch (svgContent : string) : option string :=
  match svg_tag_here svgContent with
  | Some tag => Some tag
  | None =>
      match svgContent with
      | EmptyString => None
      | String _ rest => svgMatch rest
      end
  end.

Definition is_separator (c : ascii) : bool := is_space c || Ascii.eqb c ",".

(** [s.split(/[\s,]+/)]: [cur] is the token being read, [in_sep] tells
    that the previous character belonged to a separator. *)
Fixpoint split_go (in_sep : bool) (cur s : string) : list string :=
  match s with
  | EmptyString => [cur]
  | String c s' =>
      if is_separator c then
        if in_sep then split_go true cur s'
        else cur :: split_go true EmptyString s'
      else split_go false (cur +:+ String c EmptyString) s'
  end.

Definition split (s : string) : list string := split_go false EmptyString s.

Definition units : list string := ["%"; "px"; "em"; "rem"; "pt"; "in"].

(** [(%|px|em|rem|pt|in)$] at the start of [s]: the alternatives are
    tried in order and must reach the end of the text. *)
Fixpoint unit_here (alternatives : list string) (s : string)
    : option string :=
  match alternatives with
  | [] => None
  | u :: alternatives' =>
      match literal_ci u s with
      | Some (m, EmptyString) => Some m
      | _ => unit_here alternatives' s
      end
  end.

(** [width.match(/(%|px|em|rem|pt|in)$/i)?.[0]] *)
Fixpoint unitMatch (width : string) : option string :=
  match unit_here units width with
  | Some m => Some m
  | None =>
      match width with
      | EmptyString => None
      | String _ rest => unitMatch rest
      end
  end.

(** *** The extractor *)

(** Truthiness of a text or [null]. *)
Definition present (v : option string) : bool :=
  match v with
  | Some s => negb (String.eqb s "")
  | None => false
  end.

Record dimensions : Type := Dimensions {
  width : option string;
  height : option string;
  unit : string;
  viewBox : option string;
  source : string
}.

(** The three shapes of object [getSvgDimensions] returns.  [NoneFound]
    is the object with [width] and [height] [null], the given [viewBox],
    [source] ['none found'] and the warning [message]. *)
Inductive result : Type :=
| Error (error : string)
| Found (d : dimensions)
| NoneFound (viewBox : option string) (message : string).

Definition warning : string :=
  "Warning: No explicit 'width', 'height', or derivable 'viewBox' found. SVG will likely scale to its container.".

Definition is_null {A} (v : option A) : bool :=
  match v with None => true | Some _ => false end.

Definition getSvgDimensions (svgContent : string) : result :=
  match svgMatch svgContent with
  | None => Error "Could not find the root <svg> tag."
  | Some rootTag =>
      let width := extractAttribute rootTag "width" in
      let height := extractAttribute rootTag "height" in
      let viewBox := extractAttribute rootTag "viewBox" in
      let dimensions :=
        Dimensions width height "unknown" viewBox
          (if present width || present height
           then "attributes" else "none found") in
      let dimensions :=
        if (negb (present width) || negb (present height))
           && present viewBox
        then
          let parts := split (trim (default "" viewBox)) in
          match parts with
          | [_; _; vbWidth; vbHeight] =>
              Dimensions
                (if negb (present width) then Some vbWidth
                 else Svg.width dimensions)
                (if negb (present height) then Some vbHeight
                 else Svg.height dimensions)
                "unitless (from viewBox)"
                (Svg.viewBox dimensions)
                "viewBox aspect ratio"
          | _ => dimensions
          end
        else dimensions in
      let dimensions :=
        if String.eqb (source dimensions) "attributes" && present width
        then
          Dimensions (Svg.width dimensions) (Svg.height dimensions)
            (default "unitless (default px)"
               (unitMatch (default "" width)))
            (Svg.viewBox dimensions) (source dimensions)
        else dimensions in
      if is_null (Svg.width dimensions) && is_null (Svg.height dimensions)
      then NoneFound viewBox warning
      else Found dimensions
  end.

End Svg.

(** ** Notions the properties are stated with *)

Module Extractor.

(** The arrays found directly under a key [questions], in depth-first
    order over the entries of objects and the elements of arrays.  The
    value of a [questions] key is taken whole and not entered. *)
Fixpoint questionsArrays (v : json) : list (list json) :=
  match v with
  | JObj entries =>
      flat_map (fun kv =>
                  if String.eqb (fst kv) "questions" then
                    match snd kv with
                    | JArr elems => [elems]
                    | _ => []
                    end
                  else questionsArrays (snd kv)) entries
  | JArr elems => flat_map questionsArrays elems
  | _ => []
  end.

Definition is_array (v : json) : bool :=
  match v with JArr _ => true | _ => false end.

(** Every value the traversal meets under a key [questions] is an
    array. *)
Fixpoint questionsAreArrays (v : json) : bool :=
  match v with
  | JObj entries =>
      forallb (fun kv =>
                 if String.eqb (fst kv) "questions" then is_array (snd kv)
                 else questionsAreArrays (snd kv)) entries
  | JArr elems => forallb questionsAreArrays elems
  | _ => true
  end.

(** A text that does not start with the letter q. *)
Definition no_q_head (s : string) : Prop :=
  match s with
  | EmptyString => True
  | String c _ => c <> "q"%char
  end.

(** The sum of the lengths of a list of arrays. *)
Definition totalLength (arrays : list (list json)) : nat :=
  foldr (fun a n => (length a + n)%nat) 0%nat arrays.

(** The reading of the extraction property on one input: the result
    is the concatenation of the arrays under [questions] keys. *)
Definition concatenatesQuestions (v : json) : Prop :=
  Konvertieren.extract v = Some (concat (questionsArrays v)).

(** The example of the specification:
    an object with two members, each holding a [questions] array. *)
Definition twoGroups : json :=
  JObj [ ("a", JObj [ ("questions", JArr [JNum 1; JNum 2]) ]);
         ("b", JObj [ ("questions", JArr [JNum 3]) ]) ].

(** A [questions] key holding a text instead of an array. *)
Definition textUnderQuestions : json := JObj [ ("questions", JStr "ab") ].

End Extractor.

Module Escaper.

(** The replacement table in the order the specification lists it. *)
Definition replacementChain : list (ascii * string) :=
  [ ("&"%char, "\&");
    ("%"%char, "\%");
    ("#"%char, "\#");
    ("_"%char, "\_");
    ("{"%char, "\{");
    ("}"%char, "\}");
    ("~"%char, "\textasciitilde{}");
    ("^"%char, "\textasciicircum{}");
    (dquote, String dquote (String dquote "")) ].

(** Apply the replacements one after the other, each to the result of
    the one before. *)
Definition applyChain (chain : list (ascii * string)) (s : string) : string :=
  foldl (fun acc step => Konvertieren.replace_all (fst step) (snd step) acc)
    s chain.

(** What the whole chain makes of a single character. *)
Definition escapeChar (c : ascii) : string :=
  applyChain replacementChain (String c "").

(** One pass over the text, character by character. *)
Fixpoint escapeEach (s : string) : string :=
  match s with
  | EmptyString => EmptyString
  | String c s' => escapeChar c +:+ escapeEach s'
  end.

(** [escape(escape(x))] and [escape(x)] for a text [x]. *)
Definition escapeText (x : string) : string :=
  Konvertieren.escape (Some (JStr x)).

End Escaper.

Module Grouper.
Import Ohm50.

(** The questions whose key is [k], in the order of the sequence. *)
Definition matching (k : string) (questions : list json) : list json :=
  filter (fun q => keyOf q = Some k) questions.

(** One unit per section that has a question with its key, in the order
    of the sections; a section without one is passed over. *)
Definition units (questions sections : list json)
    : list (json * list json) :=
  omap (fun sektion =>
          k ← keyOf sektion;
          match matching k questions with
          | [] => None
          | fragen => Some (sektion, fragen)
          end) sections.

(** [m] holds, under each key, the questions of that key in their
    original order, and holds nothing under a key without questions. *)
Definition grouped (m : gmap string (list json)) (questions : list json)
    : Prop :=
  forall k,
    m !! k = match matching k questions with
             | [] => None
             | fragen => Some fragen
             end.

(** No call of [writeFileSync] fails. *)
Definition writesSucceed {Fs : Type} `{!Env Fs} : Prop :=
  forall p data d, fst (writeFileSync p data d) = Ok tt.

(** The file a unit is written to. *)
Definition unitFile {Fs : Type} `{!Env Fs} (outputDir : string)
    (u : json * list json) : option (string * string) :=
  sectionFile outputDir (fst u) (snd u).

(** The files of all units, in order: a function of the two sequences
    (and of the output directory) alone. *)
Definition expectedFiles {Fs : Type} `{!Env Fs} (outputDir : string)
    (questions sections : list json) : list (string * string) :=
  omap (unitFile outputDir) (units questions sections).

(** The Grouper run on two sequences. *)
Definition run {Fs : Type} `{!Env Fs} (outputDir : string)
    (questions sections : list json) : M Fs event nat :=
  generateSections outputDir (Some (JArr sections)) (Some (JArr questions)).

(** A record: any element but [null], whose properties cannot be
    read. *)
Definition is_record (r : json) : bool :=
  match r with JNull => false | _ => true end.

(** The field [k] of a record, [undefined] when it has none. *)
Definition field (r : json) (k : string) : option json :=
  default None (get_prop r k).

(** The reading of the join property on one pair: the keys agree
    exactly when chapter and section agree. *)
Definition joinsByPair (q s : json) : Prop :=
  keyOf q = keyOf s <->
  field q "chapter" = field s "chapter"
  /\ field q "section" = field s "section".

(** Chapter [1-2] with section [3], and chapter [1] with section
    [2-3]. *)
Definition questionDash : json :=
  JObj [ ("chapter", JStr "1-2"); ("section", JStr "3");
         ("number", JStr "A") ].
Definition sectionDash : json :=
  JObj [ ("chapter", JStr "1"); ("section", JStr "2-3");
         ("section_txt", JStr "X") ].

(** The example of the specification. *)
Definition exampleQuestions : list json :=
  [ JObj [ ("chapter", JNum 1); ("section", JNum 1); ("number", JStr "A") ];
    JObj [ ("chapter", JNum 1); ("section", JNum 2); ("number", JStr "B") ] ].
Definition exampleSections : list json :=
  [ JObj [ ("chapter", JNum 1); ("section", JNum 1); ("section_txt", JStr "X") ];
    JObj [ ("chapter", JNum 1); ("section", JNum 2); ("section_txt", JStr "Y") ];
    JObj [ ("chapter", JNum 2); ("section", JNum 1); ("section_txt", JStr "Z") ] ].

End Grouper.

(** ** An environment to run the scripts in

    An in-memory file system: the files by path.  The paths in [locked]
    refuse to be written; [JSON.parse] accepts the texts of the table
    [accepted]. *)

Module MemFs.

Definition disk : Type := gmap string string.

Definition env (locked : list string) (accepted : list (string * json))
    : Env disk := {|
  existsSync := fun p d => true;
  mkdirSync := fun p d => (Ok tt, d);
  readFileSync := fun p d =>
    match d !! p with
    | Some text => Ok text
    | None => Raise "ENOENT"
    end;
  writeFileSync := fun p data d =>
    if bool_decide (p ∈ locked) then (Raise "EACCES", d)
    else (Ok tt, <[p := data]> d);
  path_join := fun a b => a +:+ "/" +:+ b;
  JSON_parse := fun text =>
    match lookup_entry text accepted with
    | Some v => Ok v
    | None => Raise "SyntaxError"
    end
|}.

Definition start {E : Type} (d : disk) : world disk E := World d [] [].

End MemFs.

(** ** Inputs on which the error handling is exercised *)

Module Failures.
Import Ohm50 Grouper.

(** The configured job of [50ohm_convert.js]. *)
Definition theJob : job := Job "50Ohm/50Ohm_NE.json" "tex_sections".

(** A file that is not JSON. *)
Definition brokenText : string := "{".
Definition brokenDisk : MemFs.disk := {[ "50Ohm/50Ohm_NE.json" := brokenText ]}.

(** A catalogue with two sections that have questions; its text stands
    for any JSON text of that value. *)
Definition catalogueText : string := "catalogue".
Definition catalogue : json :=
  JObj [ ("sections", JArr exampleSections);
         ("questions", JArr exampleQuestions) ].
Definition catalogueDisk : MemFs.disk :=
  {[ "50Ohm/50Ohm_NE.json" := catalogueText ]}.

(** The file of the first section cannot be written. *)
Definition firstLocked : Env MemFs.disk :=
  MemFs.env ["tex_sections/1S1.tex"] [ (catalogueText, catalogue) ].

(** Two questions for [konvertieren.js]; the file of the first cannot
    be written. *)
Definition twoQuestions : list json :=
  [ JObj [ ("number", JStr "A1"); ("question", JStr "Q1") ];
    JObj [ ("number", JStr "A2"); ("question", JStr "Q2") ] ].
Definition firstQuestionLocked : Env MemFs.disk :=
  MemFs.env ["tex_fragen/A1.tex"] [].

End Failures.

Module SvgCases.
Import Svg.

(** [s] between double quotes. *)
Definition quoted (s : string) : string :=
  String dquote s +:+ String dquote "".

(** A root tag whose only attribute is [stroke-width]. *)
Definition strokeOnly : string :=
  "<svg stroke-width=" +:+ quoted "2" +:+ ">".

(** The second built-in test case of the script: a [viewBox] alone. *)
Definition viewBoxOnly : string :=
  "<svg viewBox=" +:+ quoted "0 0 100 50"
  +:+ " xmlns=" +:+ quoted "http://www.w3.org/2000/svg"
  +:+ "><circle/></svg>".

(** A [width] together with a [viewBox], no [height]. *)
Definition widthAndViewBox : string :=
  "<svg width=" +:+ quoted "10" +:+ " viewBox=" +:+ quoted "0 0 100 50"
  +:+ ">".

(** The result was derived from the [viewBox]. *)
Definition derivesFromViewBox (svgContent : string) : Prop :=
  exists d, getSvgDimensions svgContent = Found d
            /\ source d = "viewBox aspect ratio".

(** The attribute [name] of the root tag of a document. *)
Definition rootAttribute (svgContent name : string) : option string :=
  rootTag ← svgMatch svgContent; extractAttribute rootTag name.

(** The reading of the derivation property on one document: a result
    derived from the [viewBox] means that the root tag has neither
    [width] nor [height]. *)
Definition derivesOnlyWithoutBoth (svgContent : string) : Prop :=
  derivesFromViewBox svgContent ->
  rootAttribute svgContent "width" = None
  /\ rootAttribute svgContent "height" = None.

End SvgCases.

(** ** Proof steps *)

(** Split a conjunction into its parts, leaving quantifiers alone. *)
Ltac conjs := repeat match goal with |- _ /\ _ => split end.

(** ** Further notions: the escaper and the extraction *)

Module EscaperMore.

(** The characters the escaper rewrites. *)
Definition special (c : ascii) : bool :=
  existsb (Ascii.eqb c)
    [ "&"; "%"; "#"; "_"; "{"; "}"; "~"; "^"; dquote ]%char.

(** No character of [s] is rewritten. *)
Fixpoint plain (s : string) : bool :=
  match s with
  | EmptyString => true
  | String c s' => negb (special c) && plain s'
  end.

(** The characters that LaTeX reads as a command character and that the
    escaper protects with a backslash. *)
Definition needs_backslash (c : ascii) : bool :=
  existsb (Ascii.eqb c) [ "&"; "%"; "#"; "_" ]%char.

(** In [s], read after the character [prev], each of these characters
    stands right behind a backslash. *)
Fixpoint backslashed (prev : ascii) (s : string) : bool :=
  match s with
  | EmptyString => true
  | String c s' =>
      (if needs_backslash c then Ascii.eqb prev "\" else true)
      && backslashed c s'
  end.

(** The last character of [s], [prev] when [s] is empty. *)
Fixpoint last_char (prev : ascii) (s : string) : ascii :=
  match s with
  | EmptyString => prev
  | String c s' => last_char c s'
  end.

End EscaperMore.

Module ExtractorMore.

(** What the traversal collects under the keys [questions], in
    depth-first order: the elements of an array, the characters of a
    text. *)
Fixpoint questionsItems (v : json) : list (list json) :=
  match v with
  | JObj entries =>
      flat_map (fun kv =>
                  if String.eqb (fst kv) "questions" then
                    match spread (snd kv) with
                    | Some items => [items]
                    | None => []
                    end
                  else questionsItems (snd kv)) entries
  | JArr elems => flat_map questionsItems elems
  | _ => []
  end.

(** Every value the traversal meets under a key [questions] can be
    spread. *)
Fixpoint questionsIterable (v : json) : bool :=
  match v with
  | JObj entries =>
      forallb (fun kv =>
                 if String.eqb (fst kv) "questions"
                 then bool_decide (is_Some (spread (snd kv)))
                 else questionsIterable (snd kv)) entries
  | JArr elems => forallb questionsIterable elems
  | _ => true
  end.

End ExtractorMore.

Module FragmentMore.
Import Konvertieren.

(** The fragment of a question as it is written: the template without
    the line break before and the one after it. *)
Definition fragmentBody (number question answer_a answer_b answer_c
    answer_d : option json) (hasPicture hasPictureA : bool) : string :=
  "\frage{" +:+ escape number +:+ "}" +:+ nl
  +:+ "    {" +:+ escape question +:+ "}" +:+ nl
  +:+ "    {" +:+ escape answer_a +:+ "}" +:+ nl
  +:+ "    {" +:+ escape answer_b +:+ "}" +:+ nl
  +:+ "    {" +:+ escape answer_c +:+ "}" +:+ nl
  +:+ "    {" +:+ escape answer_d +:+ "}" +:+ nl
  +:+ "    {" +:+ bool_text hasPicture +:+ "}{"
  +:+ bool_text hasPictureA +:+ "}".

(** A console line that reports a failed write. *)
Definition is_write_error (e : event) : bool :=
  match e with ErrWrite _ _ => true | _ => false end.

End FragmentMore.

Module SectionsMore.
Import Ohm50 Grouper.

(** The line of a section file that pulls in one question. *)
Definition inputLine (frage : json) : string :=
  let inputCommand :=
    "\input{" +:+ FRAGEN_SUBDIR +:+ "/" +:+ template (field frage "number")
    +:+ ".tex}" in
  "    " +:+ inputCommand +:+ nl.

(** The texts of a list, one after the other. *)
Definition concatText (parts : list string) : string :=
  foldr String.append "" parts.

(** The value [JSON.parse] returned lacks one of its two fields, or
    holds it with a value that counts as false. *)
Definition lacksFields (data : json) : bool :=
  negb (truthy (field data "sections"))
  || negb (truthy (field data "questions")).

End SectionsMore.

(** An environment in which no directory exists and none can be made. *)
Module ReadOnlyFs.

Definition env : Env MemFs.disk := {|
  existsSync := fun p d => false;
  mkdirSync := fun p d => (Raise "EROFS", d);
  readFileSync := @readFileSync _ (MemFs.env [] []);
  writeFileSync := fun p data d => (Raise "EROFS", d);
  path_join := @path_join _ (MemFs.env [] []);
  JSON_parse := @JSON_parse _ (MemFs.env [] [])
|}.

End ReadOnlyFs.

Module SvgMore.
Import Svg.

(** Every character of [s] satisfies [p]. *)
Fixpoint all_chars (p : ascii -> bool) (s : string) : bool :=
  match s with
  | EmptyString => true
  | String c s' => p c && all_chars p s'
  end.

(** [s] with its letters folded as the [i] flag folds them. *)
Fixpoint fold_text (s : string) : string :=
  match s with
  | EmptyString => EmptyString
  | String c s' => String (fold_case c) (fold_text s')
  end.

Definition not_separator (c : ascii) : bool := negb (is_separator c).

(** The [viewBox] can be used: it is not empty and has four tokens. *)
Definition usableViewBox (viewBox : option string) : bool :=
  present viewBox
  && (length (split (trim (default "" viewBox))) =? 4)%nat.

End SvgMore.

(** ** svg_convert.sh *)

Module SvgConvert.

(** [s] without the ending [suffix]: [None] when [s] does not end with
    it.  With [.svg] this decides the pattern [*.svg] and computes
    [${file%.svg}]. *)
Fixpoint strip_suffix (suffix s : string) : option string :=
  if String.eqb s suffix then Some EmptyString
  else
    match s with
    | EmptyString => None
    | String c s' =>
        match strip_suffix suffix s' with
        | Some stem => Some (String c stem)
        | None => None
        end
    end.

(** The lines the script prints, one constructor per [echo]. *)
Inductive line : Type :=
| ErrNoArguments
| Usage (script : string)
| WarnMissing (file : string)
| WarnNotSvg (file : string)
| Converting (file output_file : string)
| ErrNotConverted (file : string)
| Converted
| Done.

Section Script.
(** The state of the file system, the test [-f] and the program
    [svg2tikz] with its exit status. *)
Context {Fs : Type}.
Variable is_file : string -> Fs -> bool.
Variable svg2tikz : string -> string -> Fs -> nat * Fs.

(** What has been printed, the calls of [svg2tikz] made so far (output
    file, input file), and the file system. *)
Record state : Type := State {
  printed : list line;
  calls : list (string * string);
  files : Fs
}.

Definition echo (l : line) (st : state) : state :=
  State (printed st ++ [l])%list (calls st) (files st).

(** The body of the [for] loop. *)
Definition convert (file : string) (st : state) : state :=
  if negb (is_file file (files st)) then echo (WarnMissing file) st
  else
    match strip_suffix ".svg" file with
    | None => echo (WarnNotSvg file) st
    | Some stem =>
        let output_file := stem +:+ ".tex" in
        let st := echo (Converting file output_file) st in
        let '(status, fs) := svg2tikz output_file file (files st) in
        let st :=
          State (printed st) (calls st ++ [(output_file, file)])%list fs in
        if negb (status =? 0)%nat then echo (ErrNotConverted file) st
        else echo Converted st
    end.

(** The script: its exit status and the state it leaves. *)
Definition svg_convert (script : string) (args : list string) (fs : Fs)
    : nat * state :=
  let st := State [] [] fs in
  match args with
  | [] => (1%nat, echo (Usage script) (echo ErrNoArguments st))
  | _ => (0%nat, echo Done (foldl (fun st file => convert file st) st args))
  end.

End Script.

(** A call of the converter reads an argument that ends in [.svg] and
    writes to the same name ending in [.tex]. *)
Definition well_named (args : list string) (call : string * string) : Prop :=
  snd call ∈ args
  /\ exists stem, snd call = stem +:+ ".svg" /\ fst call = stem +:+ ".tex".

End SvgConvert.

(** * Properties *)

(** ** Induction over JSON values *)

Lemma json_nested_ind (P : json -> Prop) :
  P JNull ->
  (forall b, P (JBool b)) ->
  (forall n, P (JNum n)) ->
  (forall s, P (JStr s)) ->
  (forall elems, Forall P elems -> P (JArr elems)) ->
  (forall entries, Forall (fun kv => P (snd kv)) entries -> P (JObj entries)) ->
  forall v, P v.
Proof.
  intros Hnull Hbool Hnum Hstr Harr Hobj.
  fix self 1. intros [ | b | n | s | elems | entries ].
  - exact Hnull.
  - apply Hbool.
  - apply Hnum.
  - apply Hstr.
  - apply Harr. induction elems as [ | e elems IH ]; constructor.
    + apply self.
    + exact IH.
  - apply Hobj. induction entries as [ | [k e] entries IH ]; constructor.
    + apply self.
    + exact IH.
Qed.

(** ** Texts *)

Module StringFacts.

Lemma append_assoc s t u : (s +:+ t) +:+ u = s +:+ (t +:+ u).
Proof.
  induction s as [ | a s IH ]; simpl; [ reflexivity | ].
  f_equal. exact IH.
Qed.

Lemma append_nil_r s : s +:+ "" = s.
Proof.
  induction s as [ | a s IH ]; simpl; [ reflexivity | ].
  f_equal. exact IH.
Qed.

Lemma length_append s t :
  String.length (s +:+ t) = (String.length s + String.length t)%nat.
Proof.
  induction s as [ | a s IH ]; simpl; [ reflexivity | ].
  f_equal. exact IH.
Qed.

End StringFacts.

(** ** Extractor *)

Module ExtractorProofs.
Import Konvertieren Extractor.

Lemma traverse_obj entries acc :
  traverse (JObj entries) acc = entriesLoop entries acc.
Proof.
  simpl. revert acc.
  induction entries as [ | [k v] es IH ]; intros acc; [ reflexivity | ].
  simpl. destruct (visit traverse k v acc); [ apply IH | reflexivity ].
Qed.

Lemma traverse_arr elems acc :
  traverse (JArr elems) acc = elemsLoop 0 elems acc.
Proof.
  simpl. generalize 0%nat. revert acc.
  induction elems as [ | v es IH ]; intros acc i; [ reflexivity | ].
  simpl. destruct (visit traverse (index_key i) v acc);
    [ apply IH | reflexivity ].
Qed.

Lemma pretty_N_go_head x s : no_q_head s -> no_q_head (pretty_N_go x s).
Proof.
  revert s. induction (N.lt_wf_0 x) as [x _ IH]; intros s Hs.
  destruct (decide (x = 0%N)) as [-> | Hx].
  - rewrite pretty_N_go_0. exact Hs.
  - rewrite pretty_N_go_step by lia.
    apply IH.
    + apply N.div_lt; lia.
    + simpl. unfold pretty_N_char.
      repeat case_match; discriminate.
Qed.

Lemma index_key_not_questions i :
  String.eqb (index_key i) "questions" = false.
Proof.
  apply String.eqb_neq. intros Heq.
  assert (Hhead : no_q_head (index_key i)).
  { unfold index_key, pretty, pretty_nat, pretty, pretty_N.
    case_decide; [ simpl; discriminate | ].
    apply pretty_N_go_head. exact I. }
  rewrite Heq in Hhead. simpl in Hhead. congruence.
Qed.

(** An array is walked element by element. *)
Lemma visit_index i value acc :
  visit traverse (index_key i) value acc = traverse value acc.
Proof. unfold visit. rewrite index_key_not_questions. reflexivity. Qed.

Lemma totalLength_app xs ys :
  totalLength (xs ++ ys) = (totalLength xs + totalLength ys)%nat.
Proof.
  unfold totalLength. induction xs as [ | x xs IH ]; simpl; [ reflexivity | ].
  rewrite IH. lia.
Qed.

Lemma length_concat_total (xs : list (list json)) :
  length (concat xs) = totalLength xs.
Proof.
  unfold totalLength. induction xs as [ | x xs IH ]; simpl; [ reflexivity | ].
  rewrite length_app, IH. reflexivity.
Qed.

(** The accumulator form of the extraction: on well-formed input the
    traversal appends the arrays it finds to what was collected. *)
Lemma traverse_appends v :
  questionsAreArrays v = true ->
  forall acc, traverse v acc = Some (acc ++ concat (questionsArrays v))%list.
Proof.
  induction v as [ | b | n | s | elems IH | entries IH ]
    using json_nested_ind; intros Hwf acc;
    try (simpl; rewrite app_nil_r; reflexivity).
  - rewrite traverse_arr. simpl in Hwf |- *.
    generalize 0%nat. revert acc.
    induction IH as [ | e es He _ IHes ]; intros acc i; simpl.
    + rewrite app_nil_r. reflexivity.
    + simpl in Hwf. apply andb_prop in Hwf as [Hwf1 Hwf2].
      rewrite visit_index, (He Hwf1), (IHes Hwf2).
      rewrite concat_app, app_assoc. reflexivity.
  - rewrite traverse_obj. simpl in Hwf |- *. revert acc.
    induction IH as [ | [k e] es He _ IHes ]; intros acc; simpl.
    + rewrite app_nil_r. reflexivity.
    + simpl in Hwf, He. apply andb_prop in Hwf as [Hwf1 Hwf2].
      unfold visit. destruct (String.eqb k "questions").
      * destruct e; try discriminate. simpl.
        rewrite (IHes Hwf2), app_assoc. reflexivity.
      * rewrite (He Hwf1), (IHes Hwf2).
        rewrite concat_app, app_assoc. reflexivity.
Qed.

End ExtractorProofs.

Module ExtractorClaims.
Import Konvertieren Extractor ExtractorProofs.

(** The value of a [questions] key is appended whole: its elements are
    not searched, whatever they contain. *)
Lemma extract_questions_whole elems :
  extract (JObj [ ("questions", JArr elems) ]) = Some elems.
Proof. reflexivity. Qed.

Example extract_nested_questions_ignored :
  extract (JObj [ ("questions",
                   JArr [ JObj [ ("questions", JArr [JNum 7]) ] ]) ])
  = Some [ JObj [ ("questions", JArr [JNum 7]) ] ].
Proof. reflexivity. Qed.

Example extract_empty_object : extract (JObj []) = Some [].
Proof. reflexivity. Qed.

Example extract_null : extract JNull = Some [].
Proof. reflexivity. Qed.

Example extract_twoGroups :
  extract twoGroups = Some [JNum 1; JNum 2; JNum 3].
Proof. reflexivity. Qed.

(** A [questions] key holding a number, a boolean, [null] or an object
    makes the extraction raise. *)
Lemma extract_questions_not_iterable value :
  spread value = None ->
  extract (JObj [ ("questions", value) ]) = None.
Proof. intros Hs. unfold extract. simpl. unfold visit. simpl. rewrite Hs. reflexivity. Qed.

(** C1, as stated, fails: a text under a [questions] key is spread into
    its characters although no array stands under the key. *)
Lemma extract_text_under_questions :
  extract textUnderQuestions = Some [JStr "a"; JStr "b"]
  /\ ~ concatenatesQuestions textUnderQuestions.
Proof.
  split; [ reflexivity | ].
  unfold concatenatesQuestions. vm_compute. discriminate.
Qed.

(** C1 (amended): for every JSON value in which each value under a
    [questions] key met by the traversal is an array, the extraction
    returns the concatenation, in depth-first order, of those arrays;
    its length is the sum of their lengths; and an array under
    [questions] is appended whole, its elements not being searched. *)
Theorem extract_concatenates_questions (v : json) :
  questionsAreArrays v = true ->
  extract v = Some (concat (questionsArrays v))
  /\ (forall out, extract v = Some out ->
                  length out = totalLength (questionsArrays v))
  /\ (forall elems, extract (JObj [ ("questions", JArr elems) ]) = Some elems).
Proof.
  intros Hwf.
  assert (Hout : extract v = Some (concat (questionsArrays v))).
  { unfold extract. rewrite (traverse_appends v Hwf). reflexivity. }
  split; [ exact Hout | split ].
  - intros out Hv. rewrite Hout in Hv. injection Hv as <-.
    apply length_concat_total.
  - apply extract_questions_whole.
Qed.

Lemma extract_concatenates_questions_witness :
  questionsAreArrays twoGroups = true
  /\ extract twoGroups = Some (concat (questionsArrays twoGroups)).
Proof.
  split; [ reflexivity | ].
  apply (extract_concatenates_questions twoGroups). reflexivity.
Defined.

End ExtractorClaims.

(** ** Escaper *)

Module EscaperProofs.
Import Konvertieren Escaper.

Lemma replace_all_app c rep s t :
  replace_all c rep (s +:+ t) = replace_all c rep s +:+ replace_all c rep t.
Proof.
  induction s as [ | a s IH ]; simpl; [ reflexivity | ].
  destruct (Ascii.eqb a c); simpl; rewrite IH.
  - symmetry. apply StringFacts.append_assoc.
  - reflexivity.
Qed.

Lemma applyChain_app chain s t :
  applyChain chain (s +:+ t) = applyChain chain s +:+ applyChain chain t.
Proof.
  unfold applyChain. revert s t.
  induction chain as [ | [c rep] chain IH ]; intros s t; simpl.
  - reflexivity.
  - rewrite replace_all_app. apply IH.
Qed.

(** The chain acts on each character on its own: a replacement never
    produces a character that a later step rewrites. *)
Lemma applyChain_escapeEach s :
  applyChain replacementChain s = escapeEach s.
Proof.
  induction s as [ | c s IH ]; [ reflexivity | ].
  change (String c s) with (String c "" +:+ s).
  rewrite applyChain_app, IH. reflexivity.
Qed.

Lemma escape_applyChain s :
  escape (Some (JStr s)) = applyChain replacementChain s.
Proof. reflexivity. Qed.

Lemma escapeChar_length c : (1 <= String.length (escapeChar c))%nat.
Proof.
  destruct c as [[|] [|] [|] [|] [|] [|] [|] [|]]; vm_compute; lia.
Qed.

Lemma escapeEach_length s :
  (String.length s <= String.length (escapeEach s))%nat.
Proof.
  induction s as [ | c s IH ]; simpl; [ lia | ].
  rewrite StringFacts.length_append. pose proof (escapeChar_length c). lia.
Qed.

(** An ampersand makes the text strictly longer. *)
Lemma escapeEach_length_amp s :
  occurs "&" s = true ->
  (String.length s < String.length (escapeEach s))%nat.
Proof.
  induction s as [ | c s IH ]; simpl; [ discriminate | ].
  intros Hocc. rewrite StringFacts.length_append.
  destruct (Ascii.eqb_spec c "&") as [-> | Hne].
  - pose proof (escapeEach_length s).
    change (String.length (escapeChar "&")) with 2%nat. lia.
  - simpl in Hocc. specialize (IH Hocc).
    pose proof (escapeChar_length c). lia.
Qed.

Lemma occurs_app c s t : occurs c (s +:+ t) = occurs c s || occurs c t.
Proof.
  induction s as [ | a s IH ]; simpl; [ reflexivity | ].
  rewrite IH. apply orb_assoc.
Qed.

(** The ampersand survives the escaping, behind its backslash. *)
Lemma occurs_amp_escapeEach s :
  occurs "&" s = true -> occurs "&" (escapeEach s) = true.
Proof.
  induction s as [ | c s IH ]; simpl; [ discriminate | ].
  intros Hocc. rewrite occurs_app.
  destruct (Ascii.eqb_spec c "&") as [-> | Hne].
  - reflexivity.
  - simpl in Hocc. rewrite (IH Hocc). apply orb_true_r.
Qed.

End EscaperProofs.

Module EscaperClaims.
Import Konvertieren Escaper EscaperProofs.

Example escape_backslash_kept : escape (Some (JStr "\")) = "\".
Proof. reflexivity. Qed.

Example escape_tilde_braces_kept :
  escape (Some (JStr "~{")) = "\textasciitilde{}\{".
Proof. reflexivity. Qed.

Example escape_number : escape (Some (JNum 5)) = "".
Proof. reflexivity. Qed.

Example escape_undefined : escape None = "".
Proof. reflexivity. Qed.


(** C5: the escaper is not idempotent: for every text with an
    ampersand, escaping the escaped text gives something else. *)
Theorem escape_twice_differs (x : string) :
  occurs "&" x = true ->
  escapeText (escapeText x) <> escapeText x.
Proof.
  intros Hocc Heq. unfold escapeText in Heq.
  rewrite !escape_applyChain, !applyChain_escapeEach in Heq.
  pose proof (escapeEach_length_amp _ (occurs_amp_escapeEach x Hocc)) as Hlt.
  rewrite Heq in Hlt. lia.
Qed.

Lemma escape_twice_differs_witness :
  occurs "&" "R&D" = true
  /\ escapeText (escapeText "R&D") <> escapeText "R&D".
Proof.
  split; [ reflexivity | ].
  apply (escape_twice_differs "R&D"). reflexivity.
Defined.

End EscaperClaims.

(** ** Grouper *)

Module GrouperProofs.
Import Ohm50 Grouper.

Lemma matching_app k qs1 qs2 :
  matching k (qs1 ++ qs2) = (matching k qs1 ++ matching k qs2)%list.
Proof. unfold matching. apply filter_app. Qed.

Lemma matching_one_eq k q : keyOf q = Some k -> matching k [q] = [q].
Proof.
  intros Hk. unfold matching. rewrite filter_cons_True by exact Hk.
  reflexivity.
Qed.

Lemma matching_one_ne k q : keyOf q <> Some k -> matching k [q] = [].
Proof.
  intros Hk. unfold matching. rewrite filter_cons_False by exact Hk.
  reflexivity.
Qed.

Lemma grouped_empty : grouped ∅ [].
Proof. intros k. rewrite lookup_empty. reflexivity. Qed.

(** One turn of [questions.forEach]. *)
Lemma addQuestion_grouped m pre q m' :
  grouped m pre ->
  addQuestion m q = Some m' ->
  grouped m' (pre ++ [q]).
Proof.
  intros Hm Hadd. unfold addQuestion in Hadd.
  destruct (keyOf q) as [key | ] eqn:Hkey; [ simpl in Hadd | discriminate ].
  pose proof (Hm key) as Hat.
  assert (Hm' : m' = <[key := (matching key pre ++ [q])%list]> m).
  { case_bool_decide as Hsome.
    - destruct Hsome as [fragen Hfr]. rewrite Hfr in Hadd, Hat.
      simpl in Hadd. injection Hadd as <-.
      destruct (matching key pre); [ discriminate | ].
      injection Hat as ->. reflexivity.
    - rewrite lookup_insert_eq in Hadd. simpl in Hadd. injection Hadd as <-.
      rewrite insert_insert_eq.
      destruct (matching key pre) as [ | x l ]; [ reflexivity | ].
      exfalso. apply Hsome. rewrite Hat. eexists; reflexivity. }
  subst m'. intros k. rewrite matching_app.
  destruct (decide (key = k)) as [<- | Hne].
  - rewrite lookup_insert_eq, (matching_one_eq key q Hkey).
    destruct (matching key pre); reflexivity.
  - rewrite lookup_insert_ne by exact Hne.
    rewrite (matching_one_ne k q) by congruence.
    rewrite app_nil_r. apply Hm.
Qed.

Lemma fold_addQuestion_grouped qs : forall m pre m',
  grouped m pre ->
  fold_raise addQuestion qs m = Some m' ->
  grouped m' (pre ++ qs).
Proof.
  induction qs as [ | q qs IH ]; intros m pre m' Hm Hfold; simpl in Hfold.
  - injection Hfold as <-. rewrite app_nil_r. exact Hm.
  - destruct (addQuestion m q) as [m1 | ] eqn:Hadd; [ | discriminate ].
    replace (pre ++ q :: qs)%list with ((pre ++ [q]) ++ qs)%list
      by (rewrite <- app_assoc; reflexivity).
    apply (IH m1); [ | exact Hfold ].
    apply (addQuestion_grouped m); assumption.
Qed.

(** The map built from the questions holds them by key, in order. *)
Lemma groupQuestions_grouped qs m :
  groupQuestions qs = Some m -> grouped m qs.
Proof.
  intros H. apply (fold_addQuestion_grouped qs ∅ [] m grouped_empty H).
Qed.

Lemma keyOf_record r : is_record r = true -> is_Some (keyOf r).
Proof.
  destruct r; try discriminate; intros _; unfold keyOf; simpl; eauto.
Qed.

Lemma addQuestion_record m q :
  is_record q = true -> is_Some (addQuestion m q).
Proof.
  intros Hq. unfold addQuestion.
  destruct (keyOf_record q Hq) as [key ->]. simpl.
  case_bool_decide as Hsome.
  - destruct Hsome as [fragen ->]. simpl. eauto.
  - rewrite lookup_insert_eq. simpl. eauto.
Qed.

(** Grouping records never raises. *)
Lemma groupQuestions_records qs :
  forallb is_record qs = true -> is_Some (groupQuestions qs).
Proof.
  unfold groupQuestions. generalize (∅ : gmap string (list json)).
  induction qs as [ | q qs IH ]; intros m Hqs; simpl.
  - eauto.
  - simpl in Hqs. apply andb_prop in Hqs as [Hq Hqs].
    destruct (addQuestion_record m q Hq) as [m1 ->]. apply IH, Hqs.
Qed.

End GrouperProofs.

Module SectionLoop.
Import Ohm50 Grouper GrouperProofs.

Section WithEnv.
Context {Fs : Type} `{!Env Fs}.

Lemma generateLatexContent_records fragen :
  forallb is_record fragen = true -> is_Some (generateLatexContent fragen).
Proof.
  unfold generateLatexContent.
  generalize ("\begin{description}" +:+ nl).
  induction fragen as [ | f fragen IH ]; intros content Hall; simpl.
  - eauto.
  - simpl in Hall. apply andb_prop in Hall as [Hf Hall].
    assert (Hstep : is_Some (appendInput content f)).
    { destruct f; try discriminate; unfold appendInput; simpl; eauto. }
    destruct Hstep as [content' ->]. apply IH, Hall.
Qed.

Lemma sectionFile_records od sektion fragen :
  is_record sektion = true -> forallb is_record fragen = true ->
  is_Some (sectionFile od sektion fragen).
Proof.
  intros Hs Hf. unfold sectionFile.
  destruct (generateLatexContent_records fragen Hf) as [content Hc].
  destruct sektion; try discriminate; simpl; rewrite Hc; simpl; eauto.
Qed.

Lemma matching_records k qs :
  forallb is_record qs = true -> forallb is_record (matching k qs) = true.
Proof.
  intros Hqs. apply forallb_forall. intros q Hin.
  rewrite forallb_forall in Hqs. apply Hqs.
  apply list_elem_of_In. apply list_elem_of_In in Hin.
  unfold matching in Hin. apply list_elem_of_filter in Hin as [_ Hin].
  exact Hin.
Qed.

(** What one section adds to the units. *)
Lemma units_cons qs sektion ss :
  units qs (sektion :: ss) =
    match keyOf sektion with
    | Some k =>
        match matching k qs with
        | [] => units qs ss
        | fragen => (sektion, fragen) :: units qs ss
        end
    | None => units qs ss
    end.
Proof.
  unfold units. simpl. destruct (keyOf sektion) as [k | ]; simpl.
  - destruct (matching k qs); reflexivity.
  - reflexivity.
Qed.

Lemma units_app qs ss1 ss2 :
  units qs (ss1 ++ ss2) = (units qs ss1 ++ units qs ss2)%list.
Proof. unfold units. apply omap_app. Qed.

Lemma expectedFiles_app od qs ss1 ss2 :
  expectedFiles od qs (ss1 ++ ss2) =
    (expectedFiles od qs ss1 ++ expectedFiles od qs ss2)%list.
Proof. unfold expectedFiles. rewrite units_app. apply omap_app. Qed.

(** One turn of [sections.forEach], however it ends: the section was
    passed over, or its file was handed to [writeFileSync], or the
    turn raised before the call. *)
Lemma writeSection_written od m qs sektion n w :
  grouped m qs ->
  exists files,
    written (final (writeSection od m sektion n w))
      = (written w ++ files)%list
    /\ files `prefix_of` expectedFiles od qs [sektion]
    /\ console (final (writeSection od m sektion n w)) = console w
    /\ (forall n1 w1,
          writeSection od m sektion n w = Returned n1 w1 ->
          files = expectedFiles od qs [sektion]
          /\ n1 = (n + length (units qs [sektion]))%nat).
Proof.
  intros Hm. unfold expectedFiles. rewrite units_cons.
  change (units qs []) with (@nil (json * list json)).
  unfold writeSection, bind, or_type_error.
  destruct (keyOf sektion) as [key | ]; simpl.
  2:{ exists []. rewrite app_nil_r.
      conjs; [ reflexivity | apply prefix_nil | reflexivity
             | discriminate ]. }
  rewrite (Hm key).
  destruct (matching key qs) as [ | q fragen ] eqn:Hmatch; simpl.
  { exists []. rewrite app_nil_r.
    conjs; [ reflexivity | apply prefix_nil | reflexivity | ].
    intros n1 w1 Hret. injection Hret as <- <-.
    split; [ reflexivity | simpl; lia ]. }
  unfold bind, unitFile. simpl.
  destruct (sectionFile od sektion (q :: fragen)) as [[p data] | ]; simpl.
  2:{ exists []. rewrite app_nil_r.
      conjs; [ reflexivity | apply prefix_nil | reflexivity
             | discriminate ]. }
  unfold fs_writeFileSync. simpl.
  destruct (writeFileSync p data (disk w)) as [[ [] | e ] d]; simpl.
  - exists [(p, data)]. conjs; try reflexivity.
    intros n1 w1 Hret. injection Hret as <- <-.
    split; [ reflexivity | simpl; lia ].
  - exists [(p, data)]. conjs; try reflexivity. discriminate.
Qed.

(** The loop over the sections, however it ends, has handed to
    [writeFileSync] an initial part of the files of the units, in
    order; all of them, and counted, when it returns. *)
Lemma sections_written od m qs : grouped m qs ->
  forall ss n w,
  exists files,
    written (final (forEach_with (writeSection od m) ss n w))
      = (written w ++ files)%list
    /\ files `prefix_of` expectedFiles od qs ss
    /\ console (final (forEach_with (writeSection od m) ss n w))
       = console w
    /\ (forall n' w',
          forEach_with (writeSection od m) ss n w = Returned n' w' ->
          files = expectedFiles od qs ss
          /\ n' = (n + length (units qs ss))%nat).
Proof.
  intros Hm. induction ss as [ | sektion ss IH ]; intros n w.
  - exists []. simpl. rewrite app_nil_r.
    conjs; [ reflexivity | apply prefix_nil | reflexivity | ].
    intros n' w' Hret. injection Hret as <- <-.
    split; [ reflexivity | simpl; lia ].
  - destruct (writeSection_written od m qs sektion n w Hm)
      as (files1 & Hw1 & Hp1 & Hc1 & Hr1).
    change (sektion :: ss) with ([sektion] ++ ss)%list.
    rewrite expectedFiles_app, units_app, length_app.
    simpl forEach_with. unfold bind at 1 2 3.
    destruct (writeSection od m sektion n w) as [n1 w1 | e w1] eqn:Hstep.
    + destruct (Hr1 n1 w1 eq_refl) as [-> Hn1]. simpl in Hw1, Hc1.
      destruct (IH n1 w1) as (files2 & Hw2 & Hp2 & Hc2 & Hr2).
      exists (expectedFiles od qs [sektion] ++ files2)%list.
      rewrite Hw2, Hw1, Hc2, Hc1, <- app_assoc.
      conjs; [ reflexivity | apply prefix_app, Hp2 | reflexivity | ].
      intros n' w' Hret. destruct (Hr2 n' w' Hret) as [-> ->].
      split; [ reflexivity | lia ].
    + exists files1. simpl in Hw1, Hc1 |- *.
      conjs; [ exact Hw1 | apply prefix_app_r, Hp1 | exact Hc1
             | discriminate ].
Qed.

Lemma keyOf_is_record r k : keyOf r = Some k -> is_record r = true.
Proof. destruct r; try reflexivity. discriminate. Qed.

(** Every unit has a file. *)
Lemma unitFile_units od qs ss u :
  u ∈ units qs ss -> is_Some (unitFile od u).
Proof.
  unfold units. intros Hu. apply list_elem_of_omap in Hu as (s & _ & Hs).
  destruct (keyOf s) as [k | ] eqn:Hk; [ simpl in Hs | discriminate ].
  destruct (matching k qs) as [ | q fragen ] eqn:Hmatch;
    [ discriminate | ].
  injection Hs as <-. unfold unitFile. simpl.
  apply sectionFile_records; [ apply (keyOf_is_record s k Hk) | ].
  rewrite <- Hmatch. apply forallb_forall. intros x Hin.
  apply list_elem_of_In in Hin. unfold matching in Hin.
  apply list_elem_of_filter in Hin as [Hx _].
  apply (keyOf_is_record x k Hx).
Qed.

Lemma omap_all_Some {A B} (f : A -> option B) (l : list A) :
  (forall x, x ∈ l -> is_Some (f x)) ->
  mapM f l = Some (omap f l).
Proof.
  induction l as [ | x l IH ]; intros Hall; simpl; [ reflexivity | ].
  destruct (Hall x) as [y Hy]; [ left | ].
  rewrite Hy. simpl. rewrite IH; [ reflexivity | ].
  intros z Hz. apply Hall. right. exact Hz.
Qed.

(** One file per unit. *)
Lemma expectedFiles_units od qs ss :
  mapM (unitFile od) (units qs ss) = Some (expectedFiles od qs ss).
Proof. apply omap_all_Some. intros u. apply unitFile_units. Qed.

(** With records and a file system that accepts every write, the loop
    returns. *)
Lemma sections_succeed od m qs : grouped m qs ->
  writesSucceed -> forallb is_record qs = true ->
  forall ss n w,
    forallb is_record ss = true ->
    exists n' w', forEach_with (writeSection od m) ss n w = Returned n' w'.
Proof.
  intros Hm Hok Hqs. induction ss as [ | sektion ss IH ]; intros n w Hss.
  - simpl. unfold ret. eauto.
  - simpl in Hss. apply andb_prop in Hss as [Hs Hss].
    assert (Hstep : exists n1 w1,
               writeSection od m sektion n w = Returned n1 w1).
    { unfold writeSection, bind, or_type_error.
      destruct (keyOf_record sektion Hs) as [key ->]. simpl.
      rewrite (Hm key).
      destruct (matching key qs) as [ | q fragen ] eqn:Hmatch;
        [ unfold ret; eauto | ].
      simpl. unfold bind.
      destruct (sectionFile_records od sektion (q :: fragen) Hs)
        as [[p data] ->].
      { rewrite <- Hmatch. apply matching_records, Hqs. }
      simpl. unfold fs_writeFileSync. simpl.
      pose proof (Hok p data (disk w)) as Hwr.
      destruct (writeFileSync p data (disk w)) as [r d].
      simpl in Hwr. subst r. simpl. unfold ret. eauto. }
    destruct Hstep as (n1 & w1 & Hstep).
    simpl. unfold bind. rewrite Hstep. apply IH, Hss.
Qed.

End WithEnv.

End SectionLoop.

Module GrouperClaims.
Import Ohm50 Grouper GrouperProofs SectionLoop.

(** The units follow the order of the sections, and the questions of a
    unit the order of the questions. *)
Lemma units_section_order qs ss : (fst <$> units qs ss) `sublist_of` ss.
Proof.
  induction ss as [ | s ss IH ]; [ constructor | ].
  rewrite units_cons. destruct (keyOf s) as [k | ].
  - destruct (matching k qs).
    + apply sublist_cons, IH.
    + simpl. apply sublist_skip, IH.
  - apply sublist_cons, IH.
Qed.

Lemma matching_question_order k qs : matching k qs `sublist_of` qs.
Proof. unfold matching. apply sublist_filter. Qed.

(** A unit is a section together with all the questions of its key,
    of which there is at least one. *)
Lemma units_elem qs ss sektion fragen :
  (sektion, fragen) ∈ units qs ss <->
  sektion ∈ ss
  /\ exists k, keyOf sektion = Some k /\ fragen = matching k qs
               /\ fragen <> [].
Proof.
  unfold units. rewrite list_elem_of_omap. split.
  - intros (s & Hin & Hs).
    destruct (keyOf s) as [k | ] eqn:Hk; [ simpl in Hs | discriminate ].
    destruct (matching k qs) as [ | q l ] eqn:Hmatch; [ discriminate | ].
    injection Hs as <- <-. split; [ exact Hin | ].
    exists k. rewrite Hmatch. repeat split; [ exact Hk | discriminate ].
  - intros (Hin & k & Hk & -> & Hne). exists sektion.
    split; [ exact Hin | ]. rewrite Hk. simpl.
    destruct (matching k qs); [ contradiction | reflexivity ].
Qed.

Example units_of_example :
  units exampleQuestions exampleSections =
    [ (JObj [ ("chapter", JNum 1); ("section", JNum 1);
              ("section_txt", JStr "X") ],
       [ JObj [ ("chapter", JNum 1); ("section", JNum 1);
                ("number", JStr "A") ] ]);
      (JObj [ ("chapter", JNum 1); ("section", JNum 2);
              ("section_txt", JStr "Y") ],
       [ JObj [ ("chapter", JNum 1); ("section", JNum 2);
                ("number", JStr "B") ] ]) ].
Proof. vm_compute. reflexivity. Qed.

Section WithEnv.
Context {Fs : Type} `{!Env Fs}.

(** Every run of the Grouper, however it ends, has handed to
    [writeFileSync] an initial part of the files of the units; all of
    them when it returns, and then the count is their number. *)
Lemma run_written od qs ss (w : world Fs event) :
  exists files,
    written (final (run od qs ss w)) = (written w ++ files)%list
    /\ files `prefix_of` expectedFiles od qs ss
    /\ console (final (run od qs ss w)) = console w
    /\ (forall n' w', run od qs ss w = Returned n' w' ->
          files = expectedFiles od qs ss
          /\ n' = length (units qs ss)).
Proof.
  unfold run, generateSections, bind, or_type_error. simpl.
  destruct (groupQuestions qs) as [m | ] eqn:Hgroup; simpl.
  - apply sections_written, groupQuestions_grouped, Hgroup.
  - exists []. rewrite app_nil_r.
    conjs; [ reflexivity | apply prefix_nil | reflexivity | discriminate ].
Qed.

Lemma run_succeeds od qs ss (w : world Fs event) :
  forallb is_record qs = true -> forallb is_record ss = true ->
  writesSucceed ->
  exists n' w', run od qs ss w = Returned n' w'.
Proof.
  intros Hqs Hss Hok.
  unfold run, generateSections, bind, or_type_error. simpl.
  destruct (groupQuestions_records qs Hqs) as [m Hgroup].
  rewrite Hgroup. simpl.
  apply (sections_succeed od m qs); auto.
  apply groupQuestions_grouped, Hgroup.
Qed.

End WithEnv.


Lemma memfs_writesSucceed accepted :
  @writesSucceed MemFs.disk (MemFs.env [] accepted).
Proof. intros p data d. reflexivity. Qed.



(** C9: the files the Grouper writes are determined by the two
    sequences: in whatever states of the world two runs start, each
    hands to [writeFileSync] an initial part of the same list of files,
    and two runs that return have written the same files and counted
    the same number. *)
Theorem grouper_deterministic {Fs : Type} `{!Env Fs} (od : string)
    (qs ss : list json) (w1 w2 : world Fs event) :
  exists files1 files2,
    written (final (run od qs ss w1)) = (written w1 ++ files1)%list
    /\ written (final (run od qs ss w2)) = (written w2 ++ files2)%list
    /\ files1 `prefix_of` expectedFiles od qs ss
    /\ files2 `prefix_of` expectedFiles od qs ss
    /\ (forall n1 w1' n2 w2',
          run od qs ss w1 = Returned n1 w1' ->
          run od qs ss w2 = Returned n2 w2' ->
          files1 = files2 /\ n1 = n2).
Proof.
  destruct (run_written od qs ss w1) as (files1 & Hw1 & Hp1 & _ & Hr1).
  destruct (run_written od qs ss w2) as (files2 & Hw2 & Hp2 & _ & Hr2).
  exists files1, files2.
  conjs; [ exact Hw1 | exact Hw2 | exact Hp1 | exact Hp2 | ].
  intros n1 w1' n2 w2' Hrun1 Hrun2.
  destruct (Hr1 _ _ Hrun1) as [-> ->].
  destruct (Hr2 _ _ Hrun2) as [-> ->].
  split; reflexivity.
Qed.

Lemma grouper_deterministic_witness :
  exists files,
    written (final (@run MemFs.disk (MemFs.env [] []) "tex_sections"
                      exampleQuestions exampleSections (MemFs.start ∅)))
    = files
    /\ written (final (@run MemFs.disk (MemFs.env [] []) "tex_sections"
                         exampleQuestions exampleSections
                         (MemFs.start {[ "notes.txt" := "kept" ]})))
       = files.
Proof.
  destruct (@grouper_deterministic MemFs.disk (MemFs.env [] [])
              "tex_sections" exampleQuestions exampleSections
              (MemFs.start ∅) (MemFs.start {[ "notes.txt" := "kept" ]}))
    as (files1 & files2 & Hw1 & Hw2 & _ & _ & Hsame).
  destruct (@run_succeeds MemFs.disk (MemFs.env [] [])
              "tex_sections" exampleQuestions exampleSections
              (MemFs.start ∅) eq_refl eq_refl (memfs_writesSucceed []))
    as (n1 & w1' & Hrun1).
  destruct (@run_succeeds MemFs.disk (MemFs.env [] [])
              "tex_sections" exampleQuestions exampleSections
              (MemFs.start {[ "notes.txt" := "kept" ]})
              eq_refl eq_refl (memfs_writesSucceed []))
    as (n2 & w2' & Hrun2).
  destruct (Hsame _ _ _ _ Hrun1 Hrun2) as [Hfiles _].
  exists files1. rewrite Hw1, Hw2, Hfiles. split; reflexivity.
Defined.

End GrouperClaims.

Module JoinKey.
Import Ohm50 Grouper.

(** A text without a dash, followed by a dash, splits in one way. *)
Lemma append_dash_inj s1 : forall t1 s2 t2,
  occurs "-" s1 = false -> occurs "-" s2 = false ->
  s1 +:+ "-" +:+ t1 = s2 +:+ "-" +:+ t2 ->
  s1 = s2 /\ t1 = t2.
Proof.
  induction s1 as [ | a s1 IH ]; intros t1 [ | c s2 ] t2 H1 H2 Heq;
    simpl in *.
  - injection Heq as ->. auto.
  - injection Heq as <- _. discriminate.
  - injection Heq as -> _. discriminate.
  - injection Heq as -> Heq.
    apply orb_false_elim in H1 as [_ H1].
    apply orb_false_elim in H2 as [_ H2].
    destruct (IH t1 s2 t2 H1 H2 Heq) as [-> ->]. auto.
Qed.

(** The key of a record, from its fields. *)
Lemma keyOf_field r :
  is_record r = true ->
  keyOf r = Some (template (field r "chapter") +:+ "-"
                  +:+ template (field r "section")).
Proof. destruct r; try discriminate; intros _; reflexivity. Qed.

(** C3, as stated, fails: chapter [1-2] with section [3] and chapter
    [1] with section [2-3] have the same key and different chapters. *)
Lemma dash_in_chapter_collides :
  keyOf questionDash = Some "1-2-3"
  /\ keyOf sectionDash = Some "1-2-3"
  /\ ~ joinsByPair questionDash sectionDash.
Proof.
  split; [ reflexivity | split; [ reflexivity | ] ].
  intros [Hjoin _]. destruct (Hjoin eq_refl) as [Hchapter _].
  discriminate Hchapter.
Qed.

(** C3 (amended): the Grouper joins a question and a section exactly
    when the texts made of the rendered chapter, a dash and the
    rendered section are equal; records with equal chapter and equal
    section always join; and when neither rendered chapter contains a
    dash, they join exactly when the rendered chapters are equal and
    the rendered sections are equal. *)
Theorem join_on_rendered_key (q s : json) :
  is_record q = true -> is_record s = true ->
  (keyOf q = keyOf s <->
     template (field q "chapter") +:+ "-" +:+ template (field q "section")
     = template (field s "chapter") +:+ "-" +:+ template (field s "section"))
  /\ (field q "chapter" = field s "chapter" ->
      field q "section" = field s "section" ->
      keyOf q = keyOf s)
  /\ (occurs "-" (template (field q "chapter")) = false ->
      occurs "-" (template (field s "chapter")) = false ->
      (keyOf q = keyOf s <->
         template (field q "chapter") = template (field s "chapter")
         /\ template (field q "section") = template (field s "section"))).
Proof.
  intros Hq Hs. rewrite (keyOf_field q Hq), (keyOf_field s Hs).
  split; [ | split ].
  - split; [ intros [= H]; exact H | intros ->; reflexivity ].
  - intros -> ->. reflexivity.
  - intros Hdq Hds. split.
    + intros [= H]. apply (append_dash_inj _ _ _ _ Hdq Hds H).
    + intros [-> ->]. reflexivity.
Qed.

Lemma join_on_rendered_key_witness :
  keyOf (JObj [ ("chapter", JNum 1); ("section", JNum 2) ])
  = keyOf (JObj [ ("chapter", JStr "1"); ("section", JStr "2") ]).
Proof.
  pose proof (join_on_rendered_key
                (JObj [ ("chapter", JNum 1); ("section", JNum 2) ])
                (JObj [ ("chapter", JStr "1"); ("section", JStr "2") ])
                eq_refl eq_refl) as (_ & _ & Hiff).
  apply (Hiff eq_refl eq_refl). split; reflexivity.
Defined.

End JoinKey.

(** ** Error handling *)

Module ErrorHandling.
Import Grouper Failures.

Section WithEnv.
Context {Fs : Type} `{!Env Fs}.

(** [konvertieren.js] catches a text that is not JSON: two lines are
    printed, nothing is written and [main] returns. *)
Lemma main_parse_failure_caught (w : world Fs Konvertieren.event)
    rawData message :
  existsSync Konvertieren.outputDir (disk w) = true ->
  readFileSync Konvertieren.inputFile (disk w) = Ok rawData ->
  JSON_parse rawData = Raise message ->
  Konvertieren.main w =
    Returned tt
      (World (disk w)
         (console w ++ [ Konvertieren.ErrReadInput Konvertieren.inputFile;
                         Konvertieren.ErrMessage message ])%list
         (written w)).
Proof.
  intros Hdir Hread Hparse.
  unfold Konvertieren.main, bind, try_catch, fs_existsSync,
    fs_readFileSync, of_answer, print, ret, throw.
  rewrite Hdir. simpl. rewrite Hread. simpl. rewrite Hparse. simpl.
  rewrite <- app_assoc. reflexivity.
Qed.

(** One turn of the loop of [konvertieren.js]: the write is tried
    and the turn returns, whether the write failed or not. *)
Lemma writeQuestion_returns q n (w : world Fs Konvertieren.event) file :
  Konvertieren.questionFile q = Some file ->
  exists n1 w1,
    Konvertieren.writeQuestion q n w = Returned n1 w1
    /\ written w1 = (written w ++ [file])%list
    /\ (n1 = S n /\ console w1 = console w
        \/ n1 = n /\ exists message,
             console w1
             = (console w ++ [Konvertieren.ErrWrite (fst file) message])%list).
Proof.
  intros Hfile. destruct file as [p data].
  unfold Konvertieren.writeQuestion, bind, or_type_error, try_catch,
    fs_writeFileSync, print, ret.
  rewrite Hfile. simpl.
  destruct (writeFileSync p data (disk w)) as [[ [] | e ] d]; simpl.
  - eexists _, _. split; [ reflexivity | ]. simpl. auto.
  - eexists _, _. split; [ reflexivity | ]. simpl. eauto.
Qed.

(** In [konvertieren.js] a question whose file cannot be written is
    reported and the loop goes on: every question has its file handed
    to [writeFileSync]. *)
Lemma questions_all_attempted (qs : list json) :
  forallb is_record qs = true ->
  forall n (w : world Fs Konvertieren.event),
    exists n' w' files,
      forEach_with Konvertieren.writeQuestion qs n w = Returned n' w'
      /\ mapM Konvertieren.questionFile qs = Some files
      /\ written w' = (written w ++ files)%list.
Proof.
  induction qs as [ | q qs IH ]; intros Hqs n w.
  - exists n, w, []. simpl. rewrite app_nil_r. auto.
  - simpl in Hqs. apply andb_prop in Hqs as [Hq Hqs].
    assert (Hfile : is_Some (Konvertieren.questionFile q)).
    { destruct q; try discriminate; unfold Konvertieren.questionFile;
        simpl; eauto. }
    destruct Hfile as [file Hfile].
    destruct (writeQuestion_returns q n w file Hfile)
      as (n1 & w1 & Hstep & Hw1 & _).
    destruct (IH Hqs n1 w1) as (n' & w' & files & Hrun & Hfiles & Hw).
    exists n', w', (file :: files).
    simpl. unfold bind at 1. rewrite Hstep, Hrun, Hfile, Hfiles, Hw, Hw1.
    simpl. rewrite <- app_assoc. auto.
Qed.

End WithEnv.

(** C7 at the failing input: in [50ohm_convert.js] only the read stands
    inside the [try]; when the file is read and is not JSON, the error
    of [JSON.parse] leaves [processConversionJob] uncaught, nothing
    having been printed about it. *)
Theorem parse_failure_uncaught {Fs : Type} `{!Env Fs} (j : Ohm50.job)
    (w : world Fs Ohm50.event) (rawData message : string) :
  existsSync (Ohm50.outputDir j) (disk w) = true ->
  readFileSync (Ohm50.jsonPath j) (disk w) = Ok rawData ->
  JSON_parse rawData = Raise message ->
  Ohm50.processConversionJob j w =
    Thrown message
      (World (disk w)
         (console w ++ [ Ohm50.LogJob (Ohm50.jsonPath j) (Ohm50.outputDir j) ])%list
         (written w)).
Proof.
  intros Hdir Hread Hparse.
  unfold Ohm50.processConversionJob, Ohm50.setupOutputDirectory, bind,
    try_catch, fs_existsSync, fs_readFileSync, of_answer, print, ret, throw.
  simpl. rewrite Hdir. simpl. rewrite Hread. simpl. rewrite Hparse.
  reflexivity.
Qed.

Lemma parse_failure_uncaught_witness :
  @Ohm50.processConversionJob MemFs.disk (MemFs.env [] []) theJob
    (MemFs.start brokenDisk)
  = Thrown "SyntaxError"
      (World brokenDisk
         [ Ohm50.LogJob "50Ohm/50Ohm_NE.json" "tex_sections" ] []).
Proof.
  apply (@parse_failure_uncaught MemFs.disk (MemFs.env [] []) theJob
           (MemFs.start brokenDisk) brokenText "SyntaxError"
           eq_refl eq_refl eq_refl).
Defined.

(** The script as a whole ends in the uncaught error. *)
Example script_aborts_on_broken_json :
  @Ohm50.script MemFs.disk (MemFs.env [] []) (MemFs.start brokenDisk)
  = Thrown "SyntaxError"
      (World brokenDisk
         [ Ohm50.LogJob "50Ohm/50Ohm_NE.json" "tex_sections" ] []).
Proof. vm_compute. reflexivity. Qed.

(** C8 at the failing input: in [50ohm_convert.js] the write of a
    section file stands outside any [try]; when it fails, the loop over
    the sections ends there and the sections after it are not
    processed. *)
Theorem section_write_failure_aborts {Fs : Type} `{!Env Fs}
    (od : string) (m : gmap string (list json)) (sektion : json)
    (rest : list json) (n : nat) (w : world Fs Ohm50.event)
    (key : string) (fragen : list json) (p data message : string) (d : Fs) :
  Ohm50.keyOf sektion = Some key ->
  m !! key = Some fragen ->
  (0 <? length fragen)%nat = true ->
  Ohm50.sectionFile od sektion fragen = Some (p, data) ->
  writeFileSync p data (disk w) = (Raise message, d) ->
  forEach_with (Ohm50.writeSection od m) (sektion :: rest) n w =
    Thrown message
      (World d (console w) (written w ++ [(p, data)])%list).
Proof.
  intros Hkey Hm Hlen Hfile Hwrite.
  simpl. unfold bind at 1. unfold Ohm50.writeSection, bind, or_type_error.
  rewrite Hkey. simpl. rewrite Hm, Hlen, Hfile. simpl.
  unfold fs_writeFileSync. rewrite Hwrite. reflexivity.
Qed.

(** The whole script on the catalogue with the first file locked: the
    second section file is never handed to [writeFileSync] and the
    closing line is not printed. *)
Example script_aborts_on_locked_file :
  exists w',
    @Ohm50.script MemFs.disk firstLocked (MemFs.start catalogueDisk)
    = Thrown "EACCES" w'
    /\ fst <$> written w' = ["tex_sections/1S1.tex"]
    /\ console w' = [ Ohm50.LogJob "50Ohm/50Ohm_NE.json" "tex_sections" ]
    /\ disk w' !! "tex_sections/1S2.tex" = None.
Proof. eexists. vm_compute. repeat split. Qed.

(** The same two sections with no file locked are both written. *)
Example script_writes_both_sections :
  exists w',
    @Ohm50.script MemFs.disk
      (MemFs.env [] [ (catalogueText, catalogue) ])
      (MemFs.start catalogueDisk)
    = Returned tt w'
    /\ fst <$> written w'
       = ["tex_sections/1S1.tex"; "tex_sections/1S2.tex"]
    /\ console w' = [ Ohm50.LogJob "50Ohm/50Ohm_NE.json" "tex_sections";
                      Ohm50.LogGenerated 2 ].
Proof. eexists. vm_compute. repeat split. Qed.

(** [konvertieren.js] on two questions with the first file locked:
    the failure is printed and the second file is written. *)
Example questions_continue_on_locked_file :
  exists w',
    @forEach_with MemFs.disk Konvertieren.event json nat
      (@Konvertieren.writeQuestion MemFs.disk firstQuestionLocked)
      twoQuestions 0%nat (MemFs.start ∅)
    = Returned 1%nat w'
    /\ fst <$> written w' = ["tex_fragen/A1.tex"; "tex_fragen/A2.tex"]
    /\ console w' = [ Konvertieren.ErrWrite "tex_fragen/A1.tex" "EACCES" ]
    /\ is_Some (disk w' !! "tex_fragen/A2.tex").
Proof. eexists. vm_compute. repeat split. eexists; reflexivity. Qed.


(** The loop over the example sections, on the map of the example
    questions, with the first file locked. *)
Lemma section_write_failure_aborts_witness :
  exists file,
    @Ohm50.sectionFile MemFs.disk firstLocked "tex_sections"
      (JObj [ ("chapter", JNum 1); ("section", JNum 1);
              ("section_txt", JStr "X") ])
      [ JObj [ ("chapter", JNum 1); ("section", JNum 1);
               ("number", JStr "A") ] ] = Some file
    /\ forEach_with
         (@Ohm50.writeSection MemFs.disk firstLocked "tex_sections"
            (default ∅ (Ohm50.groupQuestions exampleQuestions)))
         exampleSections 0%nat (MemFs.start ∅)
       = Thrown "EACCES" (World ∅ [] [file]).
Proof.
  eexists. split; [ reflexivity | ].
  apply (@section_write_failure_aborts MemFs.disk firstLocked
           "tex_sections"
           (default ∅ (Ohm50.groupQuestions exampleQuestions))
           _ _ 0%nat (MemFs.start ∅) "1-1"
           [ JObj [ ("chapter", JNum 1); ("section", JNum 1);
                    ("number", JStr "A") ] ]);
    vm_compute; reflexivity.
Defined.

End ErrorHandling.

(** ** SVG dimensions *)

Module SvgClaims.
Import Svg SvgCases.

Example dimensions_explicit :
  getSvgDimensions
    ("<svg width=" +:+ quoted "400px" +:+ " height=" +:+ quoted "300px"
     +:+ " viewBox=" +:+ quoted "0 0 400 300" +:+ ">")
  = Found (Dimensions (Some "400px") (Some "300px") "px"
             (Some "0 0 400 300") "attributes").
Proof. vm_compute. reflexivity. Qed.

Example dimensions_viewBoxOnly :
  getSvgDimensions viewBoxOnly
  = Found (Dimensions (Some "100") (Some "50") "unitless (from viewBox)"
             (Some "0 0 100 50") "viewBox aspect ratio").
Proof. vm_compute. reflexivity. Qed.

Example dimensions_no_tag :
  getSvgDimensions "<rect/>" = Error "Could not find the root <svg> tag.".
Proof. vm_compute. reflexivity. Qed.

(** C10: the attribute lookup has no word boundary before the name: on
    a root tag whose only attribute is [stroke-width] it finds the
    value 2 for [width], and the extractor reports width 2 with source
    [attributes]. *)
Theorem width_matches_inside_stroke_width :
  extractAttribute strokeOnly "width" = Some "2"
  /\ extractAttribute strokeOnly "stroke-width" = Some "2"
  /\ getSvgDimensions strokeOnly
     = Found (Dimensions (Some "2") None "unitless (default px)" None
                "attributes").
Proof. vm_compute. repeat split. Qed.

(** C6, as stated, fails: with a [width] and no [height] the height is
    still taken from the [viewBox]. *)
Lemma derives_with_width_present :
  getSvgDimensions widthAndViewBox
  = Found (Dimensions (Some "10") (Some "50") "unitless (from viewBox)"
             (Some "0 0 100 50") "viewBox aspect ratio")
  /\ rootAttribute widthAndViewBox "width" = Some "10"
  /\ ~ derivesOnlyWithoutBoth widthAndViewBox.
Proof.
  assert (Hrun : getSvgDimensions widthAndViewBox
            = Found (Dimensions (Some "10") (Some "50")
                       "unitless (from viewBox)"
                       (Some "0 0 100 50") "viewBox aspect ratio"))
    by (vm_compute; reflexivity).
  assert (Hwidth : rootAttribute widthAndViewBox "width" = Some "10")
    by (vm_compute; reflexivity).
  split; [ exact Hrun | split; [ exact Hwidth | ] ].
  intros Hclaim. destruct Hclaim as [Habsent _].
  - eexists. split; [ exact Hrun | reflexivity ].
  - rewrite Hwidth in Habsent. discriminate.
Qed.

(** The source before step 3 is never the one of a derivation. *)
Lemma source_not_derived (b : bool) :
  (if b then "attributes" else "none found") <> "viewBox aspect ratio".
Proof. destruct b; discriminate. Qed.

(** C6 (amended): the extractor derives from the [viewBox] exactly when
    the width or the height is absent or empty (not only when both
    are), the [viewBox] is not empty and splits into exactly 4 tokens;
    then each of width and height that is absent or empty becomes the
    third, respectively the fourth, token (indices 2 and 3), one that is
    given is kept, and the unit is [unitless (from viewBox)]. *)
Theorem viewBox_derivation (svgContent rootTag : string) :
  svgMatch svgContent = Some rootTag ->
  let width := extractAttribute rootTag "width" in
  let height := extractAttribute rootTag "height" in
  let viewBox := extractAttribute rootTag "viewBox" in
  (derivesFromViewBox svgContent <->
     (present width = false \/ present height = false)
     /\ present viewBox = true
     /\ length (split (trim (default "" viewBox))) = 4%nat)
  /\ (forall p0 p1 p2 p3,
        (present width = false \/ present height = false) ->
        present viewBox = true ->
        split (trim (default "" viewBox)) = [p0; p1; p2; p3] ->
        getSvgDimensions svgContent =
          Found (Dimensions
                   (if present width then width else Some p2)
                   (if present height then height else Some p3)
                   "unitless (from viewBox)" viewBox
                   "viewBox aspect ratio")).
Proof.
  intros Hmatch width height viewBox.
  assert (Hderive : forall p0 p1 p2 p3,
        (present width = false \/ present height = false) ->
        present viewBox = true ->
        split (trim (default "" viewBox)) = [p0; p1; p2; p3] ->
        getSvgDimensions svgContent =
          Found (Dimensions
                   (if present width then width else Some p2)
                   (if present height then height else Some p3)
                   "unitless (from viewBox)" viewBox
                   "viewBox aspect ratio")).
  { intros p0 p1 p2 p3 Hmissing Hvb Hparts.
    unfold getSvgDimensions. rewrite Hmatch.
    fold width height viewBox. rewrite Hvb, Hparts.
    assert (Hcond : negb (present width) || negb (present height) = true)
      by (destruct Hmissing as [-> | ->]; simpl;
          [ reflexivity | apply orb_true_r ]).
    rewrite Hcond. simpl.
    destruct (present width) eqn:Hw, (present height) eqn:Hh;
      try discriminate; simpl;
      destruct width, height; try discriminate; reflexivity. }
  split; [ | exact Hderive ].
  split.
  - intros (d & Hrun & Hsource).
    unfold getSvgDimensions in Hrun. rewrite Hmatch in Hrun.
    fold width height viewBox in Hrun.
    destruct ((negb (present width) || negb (present height))
              && present viewBox) eqn:Hcond.
    + apply andb_prop in Hcond as [Hmissing Hvb].
      apply orb_prop in Hmissing.
      split; [ | split; [ exact Hvb | ] ].
      * destruct Hmissing as [H | H]; apply negb_true_iff in H; auto.
      * destruct (split (trim (default "" viewBox)))
          as [ | p0 [ | p1 [ | p2 [ | p3 [ | p4 parts ] ] ] ] ] eqn:Hparts;
          try reflexivity; exfalso; simpl in Hrun;
          repeat match type of Hrun with
                 | context [if ?c then _ else _] => destruct c eqn:?
                 end;
          try discriminate; injection Hrun as <-; simpl in Hsource;
          try discriminate;
          apply (source_not_derived _ Hsource).
    + exfalso. simpl in Hrun.
      repeat match type of Hrun with
             | context [if ?c then _ else _] => destruct c eqn:?
             end;
        try discriminate; injection Hrun as <-; simpl in Hsource;
        try discriminate;
        apply (source_not_derived _ Hsource).
  - intros (Hmissing & Hvb & Hlen).
    destruct (split (trim (default "" viewBox)))
      as [ | p0 [ | p1 [ | p2 [ | p3 [ | p4 parts ] ] ] ] ] eqn:Hparts;
      try discriminate.
    eexists. split; [ apply (Hderive p0 p1 p2 p3 Hmissing Hvb eq_refl) | ].
    reflexivity.
Qed.

Lemma viewBox_derivation_witness :
  derivesFromViewBox viewBoxOnly
  /\ getSvgDimensions widthAndViewBox
     = Found (Dimensions (Some "10") (Some "50") "unitless (from viewBox)"
                (Some "0 0 100 50") "viewBox aspect ratio").
Proof.
  split.
  - apply (proj1 (viewBox_derivation viewBoxOnly
                    ("<svg viewBox=" +:+ quoted "0 0 100 50"
                     +:+ " xmlns=" +:+ quoted "http://www.w3.org/2000/svg"
                     +:+ ">") eq_refl)).
    vm_compute. auto.
  - apply (proj2 (viewBox_derivation widthAndViewBox widthAndViewBox
                    eq_refl) "0" "0" "100" "50");
      vm_compute; auto.
Defined.

End SvgClaims.

(** * Further properties *)

(** ** Escaper *)

Module EscaperExtra.
Import Konvertieren Escaper EscaperProofs EscaperMore.

Lemma escapeText_escapeEach s : escapeText s = escapeEach s.
Proof. unfold escapeText. rewrite escape_applyChain. apply applyChain_escapeEach. Qed.

(** Escaping a text made of two parts is escaping the parts: no
    replacement looks across a boundary. *)
Theorem escape_concatenation (s t : string) :
  escapeText (s +:+ t) = escapeText s +:+ escapeText t.
Proof.
  unfold escapeText. rewrite !escape_applyChain. apply applyChain_app.
Qed.

Lemma escapeChar_plain c : special c = false -> escapeChar c = String c "".
Proof.
  destruct c as [[|] [|] [|] [|] [|] [|] [|] [|]]; vm_compute;
    intros H; try discriminate H; reflexivity.
Qed.

Lemma escapeChar_special c :
  special c = true -> (2 <= String.length (escapeChar c))%nat.
Proof.
  destruct c as [[|] [|] [|] [|] [|] [|] [|] [|]]; vm_compute;
    intros H; try discriminate H; lia.
Qed.

Lemma escapeEach_plain s : plain s = true -> escapeEach s = s.
Proof.
  induction s as [ | c s IH ]; simpl; [ reflexivity | ].
  intros H. apply andb_prop in H as [Hc Hs].
  apply negb_true_iff in Hc.
  rewrite (escapeChar_plain c Hc), (IH Hs). reflexivity.
Qed.

Lemma escapeEach_longer s :
  plain s = false -> (String.length s < String.length (escapeEach s))%nat.
Proof.
  induction s as [ | c s IH ]; simpl; [ discriminate | ].
  intros H. rewrite StringFacts.length_append.
  destruct (special c) eqn:Hc; simpl in H.
  - pose proof (escapeChar_special c Hc). pose proof (escapeEach_length s). lia.
  - specialize (IH H). rewrite (escapeChar_plain c Hc). simpl. lia.
Qed.

(** The escaper never shortens a text, and leaves it as it is exactly
    when it holds none of the nine characters of the table. *)
Theorem escape_unchanged_iff_plain (s : string) :
  (String.length s <= String.length (escapeText s))%nat
  /\ (escapeText s = s <-> plain s = true).
Proof.
  rewrite escapeText_escapeEach. split; [ apply escapeEach_length | ].
  split.
  - intros Heq. destruct (plain s) eqn:Hp; [ reflexivity | ].
    pose proof (escapeEach_longer s Hp) as Hlt. rewrite Heq in Hlt. lia.
  - apply escapeEach_plain.
Qed.

Lemma escape_unchanged_iff_plain_witness :
  escapeText "Ohm's law: U = R * I" = "Ohm's law: U = R * I".
Proof.
  apply (proj2 (escape_unchanged_iff_plain "Ohm's law: U = R * I")).
  reflexivity.
Defined.

Lemma occurs_escapeChar_tilde c :
  occurs "~" (escapeChar c) = false /\ occurs "^" (escapeChar c) = false.
Proof.
  destruct c as [[|] [|] [|] [|] [|] [|] [|] [|]]; vm_compute; auto.
Qed.

(** The escaped text holds no tilde and no circumflex. *)
Theorem escape_no_tilde_no_circumflex (s : string) :
  occurs "~" (escapeText s) = false /\ occurs "^" (escapeText s) = false.
Proof.
  rewrite escapeText_escapeEach.
  induction s as [ | c s [IH1 IH2] ]; simpl; [ auto | ].
  rewrite !occurs_app, IH1, IH2.
  destruct (occurs_escapeChar_tilde c) as [-> ->]. auto.
Qed.

Lemma backslashed_app prev s t :
  backslashed prev (s +:+ t)
  = backslashed prev s && backslashed (last_char prev s) t.
Proof.
  revert prev. induction s as [ | c s IH ]; intros prev; simpl.
  - reflexivity.
  - rewrite IH. apply andb_assoc.
Qed.

Lemma backslashed_escapeChar prev c : backslashed prev (escapeChar c) = true.
Proof.
  destruct c as [[|] [|] [|] [|] [|] [|] [|] [|]]; vm_compute; reflexivity.
Qed.

(** In the escaped text every ampersand, percent sign, hash and
    underscore stands right behind a backslash. *)
Theorem escape_backslash_before_command_characters (s : string) (prev : ascii) :
  backslashed prev (escapeText s) = true.
Proof.
  rewrite escapeText_escapeEach. revert prev.
  induction s as [ | c s IH ]; intros prev; simpl; [ reflexivity | ].
  rewrite backslashed_app, backslashed_escapeChar, IH. reflexivity.
Qed.

End EscaperExtra.

(** ** Extraction *)

Module ExtractorExtra.
Import Konvertieren Extractor ExtractorProofs ExtractorMore.

Lemma spread_decide value :
  bool_decide (is_Some (spread value)) = true ->
  exists items, spread value = Some items.
Proof. intros H. apply bool_decide_eq_true in H as [items H]. eauto. Qed.

Lemma spread_decide_false value :
  bool_decide (is_Some (spread value)) = false -> spread value = None.
Proof.
  intros H. apply bool_decide_eq_false in H.
  destruct (spread value); [ exfalso; apply H; eauto | reflexivity ].
Qed.

(** The traversal in full: it appends what it finds, and raises exactly
    when it meets a [questions] value that cannot be spread. *)
Lemma traverse_result v : forall acc,
  traverse v acc =
    if questionsIterable v
    then Some (acc ++ concat (questionsItems v))%list
    else None.
Proof.
  induction v as [ | b | n | s | elems IH | entries IH ]
    using json_nested_ind; intros acc;
    try (simpl; rewrite app_nil_r; reflexivity).
  - rewrite traverse_arr. simpl. generalize 0%nat. revert acc.
    induction IH as [ | e es He _ IHes ]; intros acc i; simpl.
    + rewrite app_nil_r. reflexivity.
    + rewrite visit_index, He.
      destruct (questionsIterable e); simpl; [ | reflexivity ].
      rewrite IHes. destruct (forallb questionsIterable es); [ | reflexivity ].
      rewrite concat_app, app_assoc. reflexivity.
  - rewrite traverse_obj. simpl. revert acc.
    induction IH as [ | [k e] es He _ IHes ]; intros acc; simpl.
    + rewrite app_nil_r. reflexivity.
    + simpl in He. unfold visit. destruct (String.eqb k "questions").
      * destruct (bool_decide (is_Some (spread e))) eqn:Hsp.
        -- destruct (spread_decide e Hsp) as [items ->]. simpl.
           rewrite IHes.
           destruct (forallb _ es); [ | reflexivity ].
           rewrite app_assoc. reflexivity.
        -- rewrite (spread_decide_false e Hsp). reflexivity.
      * rewrite He. destruct (questionsIterable e); simpl; [ | reflexivity ].
        rewrite IHes. destruct (forallb _ es); [ | reflexivity ].
        rewrite concat_app, app_assoc. reflexivity.
Qed.

(** The extraction raises a [TypeError] exactly when the traversal meets
    a [questions] key whose value is neither an array nor a text;
    otherwise it returns what stands under the [questions] keys, a text
    contributing its characters. *)
Theorem extract_raises_iff_not_iterable (v : json) :
  (extract v = None <-> questionsIterable v = false)
  /\ (questionsIterable v = true ->
      extract v = Some (concat (questionsItems v))).
Proof.
  unfold extract. rewrite traverse_result.
  destruct (questionsIterable v); split; try split;
    try discriminate; try reflexivity; intros; congruence.
Qed.

Lemma extract_raises_iff_not_iterable_witness :
  extract (JObj [ ("a", JArr [ JObj [ ("questions", JNum 5) ] ]) ]) = None
  /\ extract (JArr [ JObj [ ("questions", JStr "ab") ];
                     JObj [ ("questions", JArr [JNull]) ] ])
     = Some [ JStr "a"; JStr "b"; JNull ].
Proof.
  split.
  - apply (proj1 (extract_raises_iff_not_iterable _)). reflexivity.
  - apply (proj2 (extract_raises_iff_not_iterable
                    (JArr [ JObj [ ("questions", JStr "ab") ];
                            JObj [ ("questions", JArr [JNull]) ] ]))).
    reflexivity.
Defined.

(** Wrapping a value in an array, or putting it under a key other than
    [questions], changes nothing to what is extracted from it. *)
Theorem extract_through_wrappers (v : json) (key : string) :
  String.eqb key "questions" = false ->
  extract (JArr [v]) = extract v
  /\ extract (JObj [ (key, v) ]) = extract v.
Proof.
  intros Hkey. unfold extract. rewrite !traverse_result. simpl.
  rewrite Hkey, !andb_true_r, !app_nil_r. auto.
Qed.

Lemma extract_through_wrappers_witness :
  extract (JObj [ ("catalogue", twoGroups) ]) = extract twoGroups.
Proof.
  apply (extract_through_wrappers twoGroups "catalogue"). reflexivity.
Defined.

End ExtractorExtra.

(** ** The fragment files of konvertieren.js *)

Module FragmentExtra.
Import Konvertieren Grouper FragmentMore.

Lemma append_nonempty_r x y : y <> "" -> x +:+ y <> "".
Proof. destruct x; simpl; [ auto | discriminate ]. Qed.

Lemma trimEnd_step x y y' :
  trimEnd y = y' -> y' <> "" -> trimEnd (x +:+ y) = x +:+ y'.
Proof.
  intros <- Hne. induction x as [ | c x IH ]; simpl; [ reflexivity | ].
  rewrite IH. destruct (x +:+ trimEnd y) eqn:Hx; [ | reflexivity ].
  exfalso. apply (append_nonempty_r x (trimEnd y) Hne Hx).
Qed.

Lemma trimStart_space c s :
  is_space c = true -> trimStart (String c s) = trimStart s.
Proof. intros H. simpl. rewrite H. reflexivity. Qed.

Lemma trimStart_keep c s :
  is_space c = false -> trimStart (String c s) = String c s.
Proof. intros H. simpl. rewrite H. reflexivity. Qed.

Lemma trimEnd_cons c y y' :
  trimEnd y = y' -> y' <> "" -> trimEnd (String c y) = String c y'.
Proof. intros <- Hne. simpl. destruct (trimEnd y); [ contradiction | reflexivity ]. Qed.

Ltac nonempty :=
  repeat first [ discriminate | apply append_nonempty_r ].

(** Peel the text off from the left, as long as something other than
    white space remains to its right. *)
Ltac peel_trimEnd :=
  repeat match goal with
    | |- trimEnd (String ?c ?y) = String ?c ?y' =>
        apply (trimEnd_cons c y y'); [ | solve [ nonempty ] ]
    | |- trimEnd (?x +:+ ?y) = ?x +:+ ?y' =>
        apply (trimEnd_step x y y'); [ | solve [ nonempty ] ]
    end.

(** The text written for a question is the template without its first
    and last line break: white space inside the fields stays, also at
    the end of the last one. *)
Theorem fragment_trimmed (number question answer_a answer_b answer_c
    answer_d : option json) (hasPicture hasPictureA : bool) :
  trim (latexFragment number question answer_a answer_b answer_c answer_d
          hasPicture hasPictureA)
  = fragmentBody number question answer_a answer_b answer_c answer_d
      hasPicture hasPictureA.
Proof.
  unfold trim, latexFragment, fragmentBody, nl.
  cbn [String.append].
  rewrite trimStart_space by reflexivity.
  rewrite trimStart_keep by reflexivity.
  peel_trimEnd. reflexivity.
Qed.

End FragmentExtra.

(** ** The run of konvertieren.js *)

Module MainExtra.
Import Konvertieren Grouper FragmentMore ErrorHandling.

Section WithEnv.
Context {Fs : Type} `{!Env Fs}.

(** The loop over the questions with its book-keeping: every file is
    handed to [writeFileSync], and each question either counts as created
    or leaves one error line. *)
Lemma writeQuestions_accounting (qs : list json) :
  forallb is_record qs = true ->
  forall n (w : world Fs event),
    exists n' w' files errors,
      forEach_with writeQuestion qs n w = Returned n' w'
      /\ mapM questionFile qs = Some files
      /\ written w' = (written w ++ files)%list
      /\ console w' = (console w ++ errors)%list
      /\ forallb is_write_error errors = true
      /\ (n' + length errors = n + length qs)%nat.
Proof.
  induction qs as [ | q qs IH ]; intros Hqs n w.
  - exists n, w, [], []. simpl. rewrite !app_nil_r. conjs; auto.
  - simpl in Hqs. apply andb_prop in Hqs as [Hq Hqs].
    assert (Hfile : is_Some (questionFile q)).
    { destruct q; try discriminate; unfold questionFile; simpl; eauto. }
    destruct Hfile as [file Hfile].
    destruct (writeQuestion_returns q n w file Hfile)
      as (n1 & w1 & Hstep & Hw1 & Hcount).
    destruct (IH Hqs n1 w1)
      as (n' & w' & files & errors & Hrun & Hfiles & Hw & Hc & Herr & Hn).
    simpl. unfold bind at 1. rewrite Hstep, Hrun, Hfile, Hfiles. simpl.
    destruct Hcount as [[-> Hc1] | [-> [message Hc1]]].
    + exists n', w', (file :: files), errors.
      rewrite Hw, Hw1, Hc, Hc1, <- app_assoc. conjs; auto. lia.
    + exists n', w', (file :: files), (ErrWrite (fst file) message :: errors).
      rewrite Hw, Hw1, Hc, Hc1, <- !app_assoc. simpl. conjs; auto. lia.
Qed.

End WithEnv.

(** When the input file cannot be read, or is read and is not JSON,
    [main] prints its two error lines and returns: nothing is written
    and nothing is thrown. *)
Theorem main_input_failure_logged {Fs : Type} `{!Env Fs}
    (w : world Fs event) (message : string) :
  existsSync outputDir (disk w) = true ->
  (readFileSync inputFile (disk w) = Raise message
   \/ exists rawData, readFileSync inputFile (disk w) = Ok rawData
                      /\ JSON_parse rawData = Raise message) ->
  main w =
    Returned tt
      (World (disk w)
         (console w ++ [ ErrReadInput inputFile; ErrMessage message ])%list
         (written w)).
Proof.
  intros Hdir Hfail.
  unfold main, bind, try_catch, fs_existsSync, fs_readFileSync, of_answer,
    print, ret, throw.
  rewrite Hdir. simpl.
  destruct Hfail as [Hread | (rawData & Hread & Hparse)]; rewrite Hread; simpl.
  - rewrite <- app_assoc. reflexivity.
  - rewrite Hparse. simpl. rewrite <- app_assoc. reflexivity.
Qed.

Lemma main_input_failure_logged_witness :
  @main MemFs.disk (MemFs.env [] []) (MemFs.start ∅)
  = Returned tt
      (World ∅ [ ErrReadInput "Fragen/fragenkatalog3b.json";
                 ErrMessage "ENOENT" ] []).
Proof.
  apply (@main_input_failure_logged MemFs.disk (MemFs.env [] [])
           (MemFs.start ∅) "ENOENT" eq_refl).
  left. reflexivity.
Defined.

(** When the extraction raises (a [questions] key with a value that
    cannot be spread), the error leaves [main] uncaught: the traversal
    stands after the [try].  Nothing is printed and nothing written. *)
Theorem main_extraction_error_uncaught {Fs : Type} `{!Env Fs}
    (w : world Fs event) (rawData : string) (allQuestionsRaw : json) :
  existsSync outputDir (disk w) = true ->
  readFileSync inputFile (disk w) = Ok rawData ->
  JSON_parse rawData = Ok allQuestionsRaw ->
  ExtractorMore.questionsIterable allQuestionsRaw = false ->
  main w = Thrown "TypeError" w.
Proof.
  intros Hdir Hread Hparse Hbad.
  assert (Hraise : extract allQuestionsRaw = None)
    by (unfold extract; rewrite ExtractorExtra.traverse_result, Hbad;
        reflexivity).
  unfold main, bind, try_catch, fs_existsSync, fs_readFileSync, of_answer,
    or_type_error, print, ret, throw.
  rewrite Hdir. simpl. rewrite Hread. simpl. rewrite Hparse. simpl.
  rewrite Hraise. destruct w; reflexivity.
Qed.

Lemma main_extraction_error_uncaught_witness :
  @main MemFs.disk
    (MemFs.env [] [ ("bank", JObj [ ("questions", JNum 5) ]) ])
    (MemFs.start {[ "Fragen/fragenkatalog3b.json" := "bank" ]})
  = Thrown "TypeError"
      (MemFs.start {[ "Fragen/fragenkatalog3b.json" := "bank" ]}).
Proof.
  apply (@main_extraction_error_uncaught MemFs.disk
           (MemFs.env [] [ ("bank", JObj [ ("questions", JNum 5) ]) ])
           (MemFs.start {[ "Fragen/fragenkatalog3b.json" := "bank" ]})
           "bank" (JObj [ ("questions", JNum 5) ]));
    vm_compute; reflexivity.
Defined.

(** A run of [main] on a catalogue whose questions are records: every
    question has its file handed to [writeFileSync], in the order of the
    extraction; the number announced is the number of questions; and the
    number reported at the end plus the number of write errors printed
    is that number. *)
Theorem main_accounts_for_every_question {Fs : Type} `{!Env Fs}
    (w : world Fs event) (rawData : string) (allQuestionsRaw : json)
    (allQuestions : list json) :
  existsSync outputDir (disk w) = true ->
  readFileSync inputFile (disk w) = Ok rawData ->
  JSON_parse rawData = Ok allQuestionsRaw ->
  extract allQuestionsRaw = Some allQuestions ->
  forallb is_record allQuestions = true ->
  exists w' files errors filesCreated,
    main w = Returned tt w'
    /\ mapM questionFile allQuestions = Some files
    /\ written w' = (written w ++ files)%list
    /\ console w' =
         (console w ++ [ LogFound (length allQuestions) ] ++ errors
          ++ [ LogDone filesCreated ])%list
    /\ forallb is_write_error errors = true
    /\ (filesCreated + length errors = length allQuestions)%nat.
Proof.
  intros Hdir Hread Hparse Hextract Hrecords.
  destruct (writeQuestions_accounting allQuestions Hrecords 0%nat
              (World (disk w)
                 (console w ++ [ LogFound (length allQuestions) ])%list
                 (written w)))
    as (n' & w' & files & errors & Hrun & Hfiles & Hw & Hc & Herr & Hn).
  exists (World (disk w') (console w' ++ [ LogDone n' ])%list (written w')),
    files, errors, n'.
  unfold main, bind, try_catch, fs_existsSync, fs_readFileSync, of_answer,
    or_type_error, print, ret, throw.
  rewrite Hdir. simpl. rewrite Hread. simpl. rewrite Hparse. simpl.
  rewrite Hextract. simpl.
  unfold bind, print, ret in Hrun. rewrite Hrun. simpl.
  simpl in Hw, Hc. rewrite Hw, Hc, <- !app_assoc. conjs; auto.
Qed.

Lemma main_accounts_for_every_question_witness :
  exists w',
    @main MemFs.disk
      (MemFs.env ["tex_fragen/A1.tex"]
         [ ("bank", JObj [ ("questions", JArr Failures.twoQuestions) ]) ])
      (MemFs.start {[ "Fragen/fragenkatalog3b.json" := "bank" ]})
    = Returned tt w'
    /\ console w' = [ LogFound 2; ErrWrite "tex_fragen/A1.tex" "EACCES";
                      LogDone 1 ].
Proof.
  pose proof (@main_accounts_for_every_question MemFs.disk
                (MemFs.env ["tex_fragen/A1.tex"]
                   [ ("bank", JObj [ ("questions", JArr Failures.twoQuestions) ]) ])
                (MemFs.start {[ "Fragen/fragenkatalog3b.json" := "bank" ]})
                "bank" (JObj [ ("questions", JArr Failures.twoQuestions) ])
                Failures.twoQuestions) as Hmain.
  destruct Hmain as (w' & files & errors & created & Hrun & _);
    try (vm_compute; reflexivity).
  exists w'. split; [ exact Hrun | ].
  vm_compute in Hrun. injection Hrun as <-. reflexivity.
Defined.

(** A [null] among the questions ends the run in an uncaught
    [TypeError]: the questions before it have had their files handed to
    [writeFileSync], the ones after it never will. *)
Theorem null_question_aborts {Fs : Type} `{!Env Fs}
    (before after : list json) (n : nat) (w : world Fs event) :
  forallb is_record before = true ->
  exists w' files,
    forEach_with writeQuestion (before ++ JNull :: after) n w
    = Thrown "TypeError" w'
    /\ mapM questionFile before = Some files
    /\ written w' = (written w ++ files)%list.
Proof.
  revert n w. induction before as [ | q qs IH ]; intros n w Hrec.
  - exists w, []. simpl. rewrite app_nil_r. auto.
  - simpl in Hrec. apply andb_prop in Hrec as [Hq Hqs].
    assert (Hfile : is_Some (questionFile q)).
    { destruct q; try discriminate; unfold questionFile; simpl; eauto. }
    destruct Hfile as [file Hfile].
    destruct (writeQuestion_returns q n w file Hfile)
      as (n1 & w1 & Hstep & Hw1 & _).
    destruct (IH n1 w1 Hqs) as (w' & files & Hrun & Hfiles & Hw).
    exists w', (file :: files).
    simpl. unfold bind at 1. rewrite Hstep, Hrun, Hfile, Hfiles, Hw, Hw1.
    simpl. rewrite <- app_assoc. auto.
Qed.

Lemma null_question_aborts_witness :
  exists w',
    forEach_with (@writeQuestion MemFs.disk (MemFs.env [] []))
      [ JObj [ ("number", JStr "A1") ]; JNull; JObj [ ("number", JStr "A3") ] ]
      0%nat (MemFs.start ∅)
    = Thrown "TypeError" w'
    /\ fst <$> written w' = [ "tex_fragen/A1.tex" ].
Proof.
  destruct (@null_question_aborts MemFs.disk (MemFs.env [] [])
              [ JObj [ ("number", JStr "A1") ] ]
              [ JObj [ ("number", JStr "A3") ] ] 0%nat (MemFs.start ∅)
              eq_refl)
    as (w' & files & Hrun & Hfiles & Hw).
  exists w'. split; [ exact Hrun | ].
  rewrite Hw. vm_compute in Hfiles. injection Hfiles as <-. reflexivity.
Defined.

End MainExtra.

(** ** The section files of 50ohm_convert.js *)

Module SectionsExtra.
Import Ohm50 Grouper GrouperProofs SectionLoop GrouperClaims SectionsMore.

Lemma appendInput_result content frage :
  appendInput content frage =
    if is_record frage then Some (content +:+ inputLine frage) else None.
Proof. destruct frage; reflexivity. Qed.

Lemma fold_appendInput fragen : forall content,
  fold_raise appendInput fragen content =
    if forallb is_record fragen
    then Some (content +:+ concatText (inputLine <$> fragen))
    else None.
Proof.
  induction fragen as [ | f fragen IH ]; intros content; simpl.
  - rewrite StringFacts.append_nil_r. reflexivity.
  - rewrite appendInput_result. destruct (is_record f); simpl; [ | reflexivity ].
    rewrite IH. destruct (forallb is_record fragen); [ | reflexivity ].
    rewrite StringFacts.append_assoc. reflexivity.
Qed.

(** The body of a section file: the opening line, one input line per
    question in the order of the list, the closing line; for an empty
    list the two lines alone.  A [null] in the list makes it raise. *)
Theorem generateLatexContent_lines (fragenListe : list json) :
  generateLatexContent fragenListe =
    if forallb is_record fragenListe
    then Some ("\begin{description}" +:+ nl
               +:+ concatText (inputLine <$> fragenListe)
               +:+ "\end{description}" +:+ nl)
    else None.
Proof.
  unfold generateLatexContent. rewrite fold_appendInput.
  destruct (forallb is_record fragenListe); reflexivity.
Qed.

Lemma addQuestion_null m : addQuestion m JNull = None.
Proof. reflexivity. Qed.

Lemma fold_addQuestion_records qs : forall m,
  is_Some (fold_raise addQuestion qs m) -> forallb is_record qs = true.
Proof.
  induction qs as [ | q qs IH ]; intros m Hsome; simpl; [ reflexivity | ].
  simpl in Hsome. destruct (addQuestion m q) as [m1 | ] eqn:Hadd.
  - rewrite (IH m1 Hsome), andb_true_r.
    destruct q; try reflexivity. discriminate Hadd.
  - destruct Hsome as [? Hsome]. discriminate Hsome.
Qed.

(** Grouping raises exactly when a question is [null]. *)
Theorem groupQuestions_raises_iff_null (questions : list json) :
  is_Some (groupQuestions questions) <-> forallb is_record questions = true.
Proof.
  split.
  - apply fold_addQuestion_records.
  - apply groupQuestions_records.
Qed.

(** The map built from the questions is a partition of them: a key it
    holds has all the questions of that key, in order, and at least one;
    and every question is found under its own key. *)
Theorem groupQuestions_partition (questions : list json)
    (m : gmap string (list json)) :
  groupQuestions questions = Some m ->
  (forall k fragen, m !! k = Some fragen ->
     fragen <> [] /\ fragen = matching k questions)
  /\ (forall q, q ∈ questions ->
        exists k fragen, keyOf q = Some k /\ m !! k = Some fragen
                         /\ q ∈ fragen).
Proof.
  intros Hgroup. pose proof (groupQuestions_grouped _ _ Hgroup) as Hm.
  split.
  - intros k fragen Hk. rewrite (Hm k) in Hk.
    destruct (matching k questions); [ discriminate | ].
    injection Hk as <-. split; [ discriminate | reflexivity ].
  - intros q Hq.
    assert (Hrec : forallb is_record questions = true)
      by (apply (fold_addQuestion_records questions ∅); unfold groupQuestions in Hgroup; eauto).
    assert (Hqrec : is_record q = true).
    { rewrite forallb_forall in Hrec. apply Hrec, list_elem_of_In, Hq. }
    destruct (keyOf_record q Hqrec) as [k Hk].
    assert (Hin : q ∈ matching k questions).
    { unfold matching. apply list_elem_of_filter. auto. }
    exists k, (matching k questions). rewrite (Hm k).
    destruct (matching k questions) eqn:Hmatch.
    + apply elem_of_nil in Hin. contradiction.
    + auto.
Qed.

Lemma groupQuestions_partition_witness :
  exists m, groupQuestions exampleQuestions = Some m
            /\ forall k fragen, m !! k = Some fragen ->
                 fragen <> [] /\ fragen = matching k exampleQuestions.
Proof.
  destruct (groupQuestions exampleQuestions) as [m | ] eqn:Hgroup;
    [ | vm_compute in Hgroup; discriminate Hgroup ].
  exists m. split; [ reflexivity | ].
  apply (groupQuestions_partition exampleQuestions m Hgroup).
Defined.

End SectionsExtra.

(** ** One job of 50ohm_convert.js *)

Module JobExtra.
Import Ohm50 Grouper GrouperProofs SectionLoop GrouperClaims SectionsMore.

(** Unfold the steps of a job up to the point where the proof has
    something to say. *)
Ltac run_job :=
  unfold processConversionJob, setupOutputDirectory, generateSections, bind,
    try_catch, fs_existsSync, fs_mkdirSync, fs_readFileSync, of_answer,
    or_type_error, print, ret, throw; simpl.

(** When the input file cannot be read, the job prints the read error
    and returns: nothing is written and nothing is thrown. *)
Theorem job_read_failure_logged {Fs : Type} `{!Env Fs} (j : job)
    (w : world Fs event) (message : string) :
  existsSync (outputDir j) (disk w) = true ->
  readFileSync (jsonPath j) (disk w) = Raise message ->
  processConversionJob j w =
    Returned tt
      (World (disk w)
         (console w ++ [ LogJob (jsonPath j) (outputDir j);
                         ErrRead (jsonPath j) message ])%list
         (written w)).
Proof.
  intros Hdir Hread. run_job. rewrite Hdir. simpl. rewrite Hread. simpl.
  rewrite <- app_assoc. reflexivity.
Qed.

Lemma job_read_failure_logged_witness :
  @processConversionJob MemFs.disk (MemFs.env [] []) Failures.theJob
    (MemFs.start ∅)
  = Returned tt
      (World ∅ [ LogJob "50Ohm/50Ohm_NE.json" "tex_sections";
                 ErrRead "50Ohm/50Ohm_NE.json" "ENOENT" ] []).
Proof.
  apply (@job_read_failure_logged MemFs.disk (MemFs.env [] [])
           Failures.theJob (MemFs.start ∅) "ENOENT"); reflexivity.
Defined.

(** When the parsed value is not [null] and its [sections] or its
    [questions] is missing or counts as false ([null], [false], 0, the
    empty text), the job prints the schema error and returns, nothing
    being written.  An empty array counts as true and passes. *)
Theorem job_schema_error_logged {Fs : Type} `{!Env Fs} (j : job)
    (w : world Fs event) (rawData : string) (data : json) :
  existsSync (outputDir j) (disk w) = true ->
  readFileSync (jsonPath j) (disk w) = Ok rawData ->
  JSON_parse rawData = Ok data ->
  is_record data = true ->
  lacksFields data = true ->
  processConversionJob j w =
    Returned tt
      (World (disk w)
         (console w ++ [ LogJob (jsonPath j) (outputDir j);
                         ErrSchema (jsonPath j) ])%list
         (written w)).
Proof.
  intros Hdir Hread Hparse Hrec Hlacks. run_job.
  rewrite Hdir. simpl. rewrite Hread. simpl. rewrite Hparse. simpl.
  unfold lacksFields, field in Hlacks.
  destruct data; try discriminate Hrec; simpl in Hlacks |- *;
    try rewrite Hlacks; simpl; rewrite <- app_assoc; reflexivity.
Qed.

Lemma job_schema_error_logged_witness :
  @processConversionJob MemFs.disk
    (MemFs.env [] [ ("text", JObj [ ("sections", JArr []) ]) ])
    Failures.theJob (MemFs.start {[ "50Ohm/50Ohm_NE.json" := "text" ]})
  = Returned tt
      (World {[ "50Ohm/50Ohm_NE.json" := "text" ]}
         [ LogJob "50Ohm/50Ohm_NE.json" "tex_sections";
           ErrSchema "50Ohm/50Ohm_NE.json" ] []).
Proof.
  rewrite (@job_schema_error_logged MemFs.disk
             (MemFs.env [] [ ("text", JObj [ ("sections", JArr []) ]) ])
             Failures.theJob
             (MemFs.start {[ "50Ohm/50Ohm_NE.json" := "text" ]})
             "text" (JObj [ ("sections", JArr []) ]));
    vm_compute; reflexivity.
Defined.

(** When the parsed value is [null], or holds under [sections] or
    [questions] something that counts as true and is not an array, the
    job ends in an uncaught [TypeError] and nothing has been written. *)
Theorem job_type_error_uncaught {Fs : Type} `{!Env Fs} (j : job)
    (w : world Fs event) (rawData : string) (data : json) :
  existsSync (outputDir j) (disk w) = true ->
  readFileSync (jsonPath j) (disk w) = Ok rawData ->
  JSON_parse rawData = Ok data ->
  data = JNull
  \/ (lacksFields data = false
      /\ (as_array (field data "questions") = None
          \/ as_array (field data "sections") = None)) ->
  exists w',
    processConversionJob j w = Thrown "TypeError" w'
    /\ written w' = written w.
Proof.
  intros Hdir Hread Hparse Hbad. run_job.
  rewrite Hdir. simpl. rewrite Hread. simpl. rewrite Hparse. simpl.
  destruct Hbad as [-> | [Hfields Hshape]].
  - simpl. eauto.
  - unfold lacksFields, field in Hfields. unfold field in Hshape.
    destruct data; try discriminate Hfields; simpl in Hfields, Hshape |- *;
      rewrite Hfields;
      destruct Hshape as [Hq | Hs]; try rewrite Hq; simpl; eauto.
    destruct (as_array (lookup_entry "questions" entries)) as [qs | ];
      simpl; eauto.
    destruct (groupQuestions qs); simpl; eauto.
    rewrite Hs. simpl. eauto.
Qed.

Lemma job_type_error_uncaught_witness :
  exists w',
    @processConversionJob MemFs.disk
      (MemFs.env [] [ ("text", JObj [ ("sections", JNum 1);
                                      ("questions", JArr []) ]) ])
      Failures.theJob (MemFs.start {[ "50Ohm/50Ohm_NE.json" := "text" ]})
    = Thrown "TypeError" w'
    /\ written w' = [].
Proof.
  apply (@job_type_error_uncaught MemFs.disk
           (MemFs.env [] [ ("text", JObj [ ("sections", JNum 1);
                                           ("questions", JArr []) ]) ])
           Failures.theJob
           (MemFs.start {[ "50Ohm/50Ohm_NE.json" := "text" ]})
           "text" (JObj [ ("sections", JNum 1); ("questions", JArr []) ]));
    try (vm_compute; reflexivity).
  right. split; [ reflexivity | right; reflexivity ].
Defined.

Lemma units_length qs ss : (length (units qs ss) <= length ss)%nat.
Proof.
  induction ss as [ | s ss IH ]; [ reflexivity | ].
  rewrite units_cons. destruct (keyOf s) as [k | ]; simpl; [ | lia ].
  destruct (matching k qs); simpl; lia.
Qed.

Lemma units_no_questions ss : units [] ss = [].
Proof.
  induction ss as [ | s ss IH ]; [ reflexivity | ].
  rewrite units_cons. destruct (keyOf s); exact IH.
Qed.

Lemma expectedFiles_length {Fs : Type} `{!Env Fs} od qs ss :
  length (expectedFiles od qs ss) = length (units qs ss).
Proof.
  symmetry. apply (length_mapM (unitFile od)), expectedFiles_units.
Qed.

(** A job on a catalogue of records, on a file system that accepts the
    writes: it returns having written the files of the units and
    printed, after its opening line, the number of units.  Empty arrays
    of sections or questions give no file and the number 0. *)
Theorem job_writes_sections {Fs : Type} `{!Env Fs} (j : job)
    (w : world Fs event) (rawData : string) (data : json)
    (qs ss : list json) :
  existsSync (outputDir j) (disk w) = true ->
  readFileSync (jsonPath j) (disk w) = Ok rawData ->
  JSON_parse rawData = Ok data ->
  get_prop data "sections" = Some (Some (JArr ss)) ->
  get_prop data "questions" = Some (Some (JArr qs)) ->
  forallb is_record qs = true ->
  forallb is_record ss = true ->
  writesSucceed ->
  exists w',
    processConversionJob j w = Returned tt w'
    /\ written w' = (written w ++ expectedFiles (outputDir j) qs ss)%list
    /\ console w' =
         (console w ++ [ LogJob (jsonPath j) (outputDir j);
                         LogGenerated (length (units qs ss)) ])%list
    /\ length (units qs ss) <= length ss
    /\ (qs = [] -> expectedFiles (outputDir j) qs ss = []).
Proof.
  intros Hdir Hread Hparse Hss Hqs Hrq Hrs Hok.
  set (w1 := World (disk w)
               (console w ++ [ LogJob (jsonPath j) (outputDir j) ])%list
               (written w)).
  destruct (run_succeeds (outputDir j) qs ss w1 Hrq Hrs Hok)
    as (n' & w' & Hrun).
  destruct (run_written (outputDir j) qs ss w1) as (files & Hw & _ & Hc & Hret).
  destruct (Hret n' w' Hrun) as [-> ->].
  rewrite Hrun in Hw, Hc. simpl in Hw, Hc.
  exists (World (disk w')
            (console w' ++ [ LogGenerated (length (units qs ss)) ])%list
            (written w')).
  conjs.
  - unfold processConversionJob, setupOutputDirectory, bind, try_catch,
      fs_existsSync, fs_readFileSync, of_answer, or_type_error, print, ret.
    simpl. rewrite Hdir. simpl. rewrite Hread. simpl. rewrite Hparse. simpl.
    rewrite Hss, Hqs. simpl.
    change (generateSections (outputDir j) (Some (JArr ss)) (Some (JArr qs)))
      with (run (outputDir j) qs ss).
    fold w1. rewrite Hrun. reflexivity.
  - exact Hw.
  - simpl. rewrite Hc. unfold w1. simpl. rewrite <- app_assoc. reflexivity.
  - apply units_length.
  - intros ->. unfold expectedFiles. rewrite units_no_questions. reflexivity.
Qed.

Lemma job_writes_sections_witness :
  exists w',
    @processConversionJob MemFs.disk
      (MemFs.env [] [ (Failures.catalogueText, Failures.catalogue) ])
      Failures.theJob (MemFs.start Failures.catalogueDisk)
    = Returned tt w'
    /\ console w' = [ LogJob "50Ohm/50Ohm_NE.json" "tex_sections";
                      LogGenerated 2 ].
Proof.
  pose proof (@job_writes_sections MemFs.disk
                (MemFs.env [] [ (Failures.catalogueText, Failures.catalogue) ])
                Failures.theJob (MemFs.start Failures.catalogueDisk)
                Failures.catalogueText Failures.catalogue
                exampleQuestions exampleSections) as Hjob.
  destruct Hjob as (w' & Hrun & _ & Hc & _);
    try (vm_compute; reflexivity).
  exists w'. split; [ exact Hrun | exact Hc ].
Defined.

(** Neither script catches a failure to create its output directory:
    the error leaves the job, respectively [main], before the input is
    read. *)
Theorem output_directory_failure_uncaught {Fs : Type} `{!Env Fs}
    (j : job) (w : world Fs event) (wk : world Fs Konvertieren.event)
    (message : string) (d : Fs) :
  (existsSync (outputDir j) (disk w) = false ->
   mkdirSync (outputDir j) (disk w) = (Raise message, d) ->
   processConversionJob j w =
     Thrown message
       (World d (console w ++ [ LogJob (jsonPath j) (outputDir j) ])%list
          (written w)))
  /\ (existsSync Konvertieren.outputDir (disk wk) = false ->
      mkdirSync Konvertieren.outputDir (disk wk) = (Raise message, d) ->
      Konvertieren.main wk = Thrown message (World d (console wk) (written wk))).
Proof.
  split; intros Hdir Hmk.
  - run_job. rewrite Hdir. simpl. rewrite Hmk. reflexivity.
  - unfold Konvertieren.main, bind, fs_existsSync, fs_mkdirSync, of_answer,
      throw.
    rewrite Hdir. simpl. rewrite Hmk. reflexivity.
Qed.

Lemma output_directory_failure_uncaught_witness :
  @processConversionJob MemFs.disk ReadOnlyFs.env Failures.theJob
    (MemFs.start ∅)
  = Thrown "EROFS"
      (World ∅ [ LogJob "50Ohm/50Ohm_NE.json" "tex_sections" ] [])
  /\ @Konvertieren.main MemFs.disk ReadOnlyFs.env (MemFs.start ∅)
     = Thrown "EROFS" (World ∅ [] []).
Proof.
  destruct (@output_directory_failure_uncaught MemFs.disk ReadOnlyFs.env
              Failures.theJob (MemFs.start ∅) (MemFs.start ∅) "EROFS" ∅)
    as [Hjob Hmain].
  split; [ apply Hjob | apply Hmain ]; reflexivity.
Defined.

End JobExtra.

(** ** The matchers of svg_dimension_parser.js *)

Module SvgMatchers.
Import Svg SvgMore.

Lemma literal_ci_split pat : forall s m rest,
  literal_ci pat s = Some (m, rest) ->
  s = m +:+ rest /\ fold_text m = fold_text pat.
Proof.
  induction pat as [ | p pat IH ]; intros s m rest H; simpl in H.
  - injection H as <- <-. auto.
  - destruct s as [ | c s ]; [ discriminate | ].
    destruct (eq_ci p c) eqn:Hpc; [ | discriminate ].
    destruct (literal_ci pat s) as [[m' rest'] | ] eqn:Hlit; [ | discriminate ].
    injection H as <- <-.
    destruct (IH _ _ _ Hlit) as [-> Hfold].
    unfold eq_ci in Hpc. apply Ascii.eqb_eq in Hpc.
    simpl. rewrite Hfold, Hpc. auto.
Qed.

Lemma span_split keep : forall s m rest,
  span keep s = (m, rest) ->
  s = m +:+ rest /\ all_chars keep m = true.
Proof.
  induction s as [ | c s IH ]; intros m rest H; simpl in H.
  - injection H as <- <-. auto.
  - destruct (keep c) eqn:Hc.
    + destruct (span keep s) as [m' rest'] eqn:Hspan.
      injection H as <- <-. destruct (IH _ _ eq_refl) as [-> Hall].
      simpl. rewrite Hc, Hall. auto.
    + injection H as <- <-. auto.
Qed.







Lemma svg_tag_here_shape s tag :
  svg_tag_here s = Some tag ->
  exists opening attrs after,
    s = tag +:+ after
    /\ tag = opening +:+ attrs +:+ ">"
    /\ fold_text opening = "<svg"
    /\ occurs ">" attrs = false.
Proof.
  unfold svg_tag_here. intros H.
  destruct (literal_ci "<svg" s) as [[opening s1] | ] eqn:Hlit;
    [ | discriminate ].
  destruct (literal_ci_split _ _ _ _ Hlit) as [-> Hfold].
  destruct (span (fun c => negb (Ascii.eqb c ">")) s1) as [attrs s2] eqn:Hsp.
  destruct (span_split _ _ _ _ Hsp) as [-> Hall].
  destruct s2 as [ | c after ]; [ discriminate | ].
  destruct (Ascii.eqb_spec c ">") as [-> | Hne].
  2:{ destruct c as [[|] [|] [|] [|] [|] [|] [|] [|]];
        try discriminate H; contradiction Hne; reflexivity. }
  injection H as <-. exists opening, attrs, after.
  rewrite ?StringFacts.append_assoc. simpl.
  rewrite ?StringFacts.append_assoc. conjs; try reflexivity.
  - exact Hfold.
  - clear -Hall. induction attrs as [ | a attrs IH ]; [ reflexivity | ].
    simpl in Hall |- *. apply andb_prop in Hall as [Ha Hall].
    apply negb_true_iff in Ha. rewrite Ha, (IH Hall). reflexivity.
Qed.

(** The root tag the extractor works on is a piece of the document: it
    starts with the letters of [<svg] in any case and runs to the first
    [>] after them, whatever stands there (an attribute value holding a
    [>] cuts the tag short). *)
Theorem svgMatch_shape (svgContent rootTag : string) :
  svgMatch svgContent = Some rootTag ->
  exists before opening attrs after,
    svgContent = before +:+ rootTag +:+ after
    /\ rootTag = opening +:+ attrs +:+ ">"
    /\ fold_text opening = "<svg"
    /\ occurs ">" attrs = false.
Proof.
  induction svgContent as [ | c s IH ]; simpl.
  - discriminate.
  - destruct (svg_tag_here (String c s)) as [tag | ] eqn:Hhere.
    + intros [= <-].
      destruct (svg_tag_here_shape _ _ Hhere)
        as (opening & attrs & after & Hs & Htag & Hfold & Hocc).
      exists "", opening, attrs, after. simpl. auto.
    + intros H.
      destruct (IH H) as (before & opening & attrs & after & -> & Hrest).
      exists (String c before), opening, attrs, after. auto.
Qed.

Lemma svgMatch_shape_witness :
  exists before opening attrs after,
    SvgCases.viewBoxOnly
    = before +:+ ("<svg viewBox=" +:+ SvgCases.quoted "0 0 100 50"
                  +:+ " xmlns="
                  +:+ SvgCases.quoted "http://www.w3.org/2000/svg" +:+ ">")
      +:+ after
    /\ "<svg viewBox=" +:+ SvgCases.quoted "0 0 100 50" +:+ " xmlns="
       +:+ SvgCases.quoted "http://www.w3.org/2000/svg" +:+ ">"
       = opening +:+ attrs +:+ ">"
    /\ fold_text opening = "<svg"
    /\ occurs ">" attrs = false.
Proof.
  apply (svgMatch_shape SvgCases.viewBoxOnly). vm_compute. reflexivity.
Defined.

End SvgMatchers.

(** ** The results of getSvgDimensions *)

Module SvgResults.
Import Svg SvgMore SvgMatchers.

Lemma four_tokens (parts : list string) :
  (length parts =? 4)%nat = true ->
  exists p0 p1 p2 p3, parts = [p0; p1; p2; p3].
Proof.
  destruct parts as [ | p0 [ | p1 [ | p2 [ | p3 [ | p4 parts ] ] ] ] ];
    try discriminate. eauto.
Qed.

Lemma not_four_tokens (parts : list string) :
  (length parts =? 4)%nat = false ->
  match parts with [_; _; _; _] => False | _ => True end.
Proof.
  destruct parts as [ | p0 [ | p1 [ | p2 [ | p3 [ | p4 parts ] ] ] ] ];
    try discriminate; auto.
Qed.

(** The extractor as a table of cases over the three attributes of the
    root tag. *)
Lemma getSvgDimensions_cases (svgContent rootTag : string) :
  svgMatch svgContent = Some rootTag ->
  let width := extractAttribute rootTag "width" in
  let height := extractAttribute rootTag "height" in
  let viewBox := extractAttribute rootTag "viewBox" in
  getSvgDimensions svgContent =
    if (negb (present width) || negb (present height))
       && usableViewBox viewBox
    then
      Found (Dimensions
               (if present width then width
                else nth_error (split (trim (default "" viewBox))) 2)
               (if present height then height
                else nth_error (split (trim (default "" viewBox))) 3)
               "unitless (from viewBox)" viewBox "viewBox aspect ratio")
    else if present width then
      Found (Dimensions width height
               (default "unitless (default px)"
                  (unitMatch (default "" width)))
               viewBox "attributes")
    else if present height then
      Found (Dimensions width height "unknown" viewBox "attributes")
    else if is_null width && is_null height then
      NoneFound viewBox warning
    else
      Found (Dimensions width height "unknown" viewBox "none found").
Proof.
  intros Hmatch width height viewBox.
  unfold getSvgDimensions. rewrite Hmatch. fold width height viewBox.
  unfold usableViewBox.
  destruct (present viewBox) eqn:Hvb; simpl.
  - destruct (length (split (trim (default "" viewBox))) =? 4)%nat eqn:Hlen.
    + destruct (four_tokens _ Hlen) as (p0 & p1 & p2 & p3 & ->).
      destruct (present width) eqn:Hw, (present height) eqn:Hh; simpl;
        try reflexivity;
        destruct width, height; try discriminate; simpl; reflexivity.
    + apply not_four_tokens in Hlen.
      rewrite !andb_false_r. simpl.
      destruct (split (trim (default "" viewBox)))
        as [ | p0 [ | p1 [ | p2 [ | p3 [ | p4 parts ] ] ] ] ];
        try contradiction;
        destruct (present width) eqn:Hw, (present height) eqn:Hh; simpl;
        try reflexivity;
        destruct width, height; try discriminate; simpl; reflexivity.
  - rewrite !andb_false_r. simpl.
    destruct (present width) eqn:Hw, (present height) eqn:Hh; simpl;
      try reflexivity;
      destruct width, height; try discriminate; simpl; reflexivity.
Qed.

(** What the tag gives is reported as given: a width or a height that is
    not empty is never replaced, the [viewBox] is passed on unchanged,
    and a result with dimensions has at least one that is not [null]. *)
Theorem explicit_dimensions_kept (svgContent rootTag : string)
    (d : dimensions) :
  svgMatch svgContent = Some rootTag ->
  getSvgDimensions svgContent = Found d ->
  (present (extractAttribute rootTag "width") = true ->
   width d = extractAttribute rootTag "width")
  /\ (present (extractAttribute rootTag "height") = true ->
      height d = extractAttribute rootTag "height")
  /\ viewBox d = extractAttribute rootTag "viewBox"
  /\ is_null (width d) && is_null (height d) = false.
Proof.
  intros Hmatch Hrun.
  rewrite (getSvgDimensions_cases _ _ Hmatch) in Hrun.
  unfold usableViewBox in Hrun.
  destruct (present (extractAttribute rootTag "width")) eqn:Hw,
           (present (extractAttribute rootTag "height")) eqn:Hh;
    simpl in Hrun.
  - injection Hrun as <-. simpl. conjs; auto.
    destruct (extractAttribute rootTag "width"); [ reflexivity | discriminate ].
  - destruct (present (extractAttribute rootTag "viewBox")
              && (length _ =? 4)%nat) eqn:Hu;
      injection Hrun as <-; simpl; conjs; auto; try discriminate;
      destruct (extractAttribute rootTag "width");
      try reflexivity; discriminate.
  - destruct (present (extractAttribute rootTag "viewBox")
              && (length _ =? 4)%nat) eqn:Hu;
      injection Hrun as <-; simpl; conjs; auto; try discriminate.
    + apply andb_prop in Hu as [_ Hlen].
      destruct (four_tokens _ Hlen) as (p0 & p1 & p2 & p3 & ->). reflexivity.
    + destruct (extractAttribute rootTag "height");
        [ apply andb_false_r | discriminate ].
  - destruct (present (extractAttribute rootTag "viewBox")
              && (length _ =? 4)%nat) eqn:Hu.
    + injection Hrun as <-. simpl. conjs; auto; try discriminate.
      apply andb_prop in Hu as [_ Hlen].
      destruct (four_tokens _ Hlen) as (p0 & p1 & p2 & p3 & ->). reflexivity.
    + destruct (is_null (extractAttribute rootTag "width")
                && is_null (extractAttribute rootTag "height")) eqn:Hnull;
        [ discriminate | ].
      injection Hrun as <-. simpl. conjs; auto; discriminate.
Qed.

Lemma explicit_dimensions_kept_witness :
  exists d,
    getSvgDimensions SvgCases.widthAndViewBox = Found d
    /\ width d = extractAttribute SvgCases.widthAndViewBox "width"
    /\ height d = Some "50".
Proof.
  eexists. split; [ vm_compute; reflexivity | ].
  split; [ | reflexivity ].
  apply (explicit_dimensions_kept SvgCases.widthAndViewBox
           SvgCases.widthAndViewBox); vm_compute; reflexivity.
Defined.

(** The three shapes of the result: the error when the document has no
    root tag; the warning exactly when the tag has neither [width] nor
    [height] and no [viewBox] that can be used; dimensions otherwise. *)
Theorem result_shapes (svgContent : string) :
  (getSvgDimensions svgContent = Error "Could not find the root <svg> tag."
   <-> svgMatch svgContent = None)
  /\ (forall rootTag, svgMatch svgContent = Some rootTag ->
        (getSvgDimensions svgContent
         = NoneFound (extractAttribute rootTag "viewBox") warning
         <-> extractAttribute rootTag "width" = None
             /\ extractAttribute rootTag "height" = None
             /\ usableViewBox (extractAttribute rootTag "viewBox") = false)).
Proof.
  split.
  - split.
    + intros Hrun. destruct (svgMatch svgContent) as [tag | ] eqn:Hmatch;
        [ | reflexivity ].
      rewrite (getSvgDimensions_cases _ _ Hmatch) in Hrun.
      repeat match type of Hrun with
             | context [if ?c then _ else _] => destruct c
             end; discriminate.
    + intros Hmatch. unfold getSvgDimensions. rewrite Hmatch. reflexivity.
  - intros rootTag Hmatch. rewrite (getSvgDimensions_cases _ _ Hmatch).
    destruct (extractAttribute rootTag "width") as [w | ] eqn:Hw,
             (extractAttribute rootTag "height") as [h | ] eqn:Hh;
      simpl;
      destruct (usableViewBox (extractAttribute rootTag "viewBox"));
      simpl;
      repeat match goal with
             | |- context [if ?c then _ else _] => destruct c
             end;
      split; try discriminate; try (intros (? & ? & ?); discriminate);
      auto.
Qed.

Lemma fold_case_idempotent c : fold_case (fold_case c) = fold_case c.
Proof.
  destruct c as [[|] [|] [|] [|] [|] [|] [|] [|]]; reflexivity.
Qed.

Lemma literal_ci_self u : literal_ci (fold_text u) u = Some (u, "").
Proof.
  induction u as [ | c u IH ]; simpl; [ reflexivity | ].
  unfold eq_ci. rewrite fold_case_idempotent, Ascii.eqb_refl, IH.
  reflexivity.
Qed.

Lemma unit_here_sound alternatives : forall s m,
  unit_here alternatives s = Some m ->
  s = m /\ In (fold_text m) (fold_text <$> alternatives).
Proof.
  induction alternatives as [ | u alternatives IH ]; intros s m H;
    simpl in H; [ discriminate | ].
  destruct (literal_ci u s) as [[m' rest] | ] eqn:Hlit.
  - destruct rest as [ | c rest ].
    + injection H as <-.
      destruct (literal_ci_split _ _ _ _ Hlit) as [-> Hfold].
      rewrite StringFacts.append_nil_r. split; [ reflexivity | ].
      left. symmetry. exact Hfold.
    + destruct (IH _ _ H) as [-> Hin]. split; [ reflexivity | right; exact Hin ].
  - destruct (IH _ _ H) as [-> Hin]. split; [ reflexivity | right; exact Hin ].
Qed.

Lemma unit_here_complete alternatives : forall u,
  In (fold_text u) alternatives -> is_Some (unit_here alternatives u).
Proof.
  induction alternatives as [ | v alternatives IH ]; intros u Hin;
    [ contradiction | ].
  simpl. destruct Hin as [-> | Hin].
  - rewrite literal_ci_self. eauto.
  - destruct (literal_ci v u) as [[m [ | c rest ]] | ]; eauto.
Qed.

Lemma unitMatch_cons c w :
  unitMatch (String c w) =
    match unit_here units (String c w) with
    | Some m => Some m
    | None => unitMatch w
    end.
Proof. reflexivity. Qed.

(** The unit read off an explicit width is an ending of the width that
    is, up to the case of its letters, one of [%], [px], [em], [rem],
    [pt], [in]; and a width with such an ending always has its unit
    found. *)
Theorem unitMatch_is_suffix (width : string) :
  (forall u, unitMatch width = Some u ->
             exists number, width = number +:+ u /\ In (fold_text u) units)
  /\ (forall number u, width = number +:+ u -> In (fold_text u) units ->
                       is_Some (unitMatch width)).
Proof.
  split.
  - induction width as [ | c w IH ]; intros u H.
    + discriminate H.
    + rewrite unitMatch_cons in H.
      destruct (unit_here units (String c w)) as [m | ] eqn:Hhere.
      * injection H as <-. destruct (unit_here_sound _ _ _ Hhere) as [<- Hin].
        exists "". auto.
      * destruct (IH u H) as (number & -> & Hin).
        exists (String c number). auto.
  - intros number u -> Hin.
    induction number as [ | c number IH ].
    + destruct (unit_here_complete units u Hin) as [m Hm].
      destruct u as [ | a u ]; [ vm_compute in Hm; discriminate Hm | ].
      simpl String.append. rewrite unitMatch_cons, Hm. eauto.
    + simpl String.append. rewrite unitMatch_cons.
      destruct (unit_here units (String c (number +:+ u))); eauto.
Qed.

Lemma unitMatch_is_suffix_witness :
  (exists number, "1.5REM" = number +:+ "REM" /\ In (fold_text "REM") units)
  /\ is_Some (unitMatch "12pt").
Proof.
  split.
  - apply (proj1 (unitMatch_is_suffix "1.5REM") "REM"). reflexivity.
  - apply (proj2 (unitMatch_is_suffix "12pt") "12" "pt"); vm_compute; auto 10.
Defined.

Lemma split_go_tokens s : forall in_sep cur,
  all_chars not_separator cur = true ->
  split_go in_sep cur s <> []
  /\ Forall (fun token => all_chars not_separator token = true)
       (split_go in_sep cur s).
Proof.
  induction s as [ | c s IH ]; intros in_sep cur Hcur; simpl.
  - split; [ discriminate | ]. constructor; [ exact Hcur | constructor ].
  - destruct (is_separator c) eqn:Hc.
    + destruct in_sep.
      * apply IH, Hcur.
      * split; [ discriminate | ].
        constructor; [ exact Hcur | apply (IH true ""); reflexivity ].
    + apply IH.
      clear -Hcur Hc. induction cur as [ | a cur IHc ]; simpl.
      * unfold not_separator. rewrite Hc. reflexivity.
      * simpl in Hcur. apply andb_prop in Hcur as [Ha Hcur].
        rewrite Ha, (IHc Hcur). reflexivity.
Qed.

Lemma split_go_whole s : forall cur,
  all_chars not_separator s = true ->
  split_go false cur s = [cur +:+ s].
Proof.
  induction s as [ | c s IH ]; intros cur Hs; simpl.
  - rewrite StringFacts.append_nil_r. reflexivity.
  - simpl in Hs. apply andb_prop in Hs as [Hc Hs].
    unfold not_separator in Hc. apply negb_true_iff in Hc. rewrite Hc.
    rewrite (IH _ Hs), StringFacts.append_assoc. reflexivity.
Qed.

(** Splitting the [viewBox]: there is always at least one token, no
    token holds white space or a comma, and a text without either is its
    own single token (the empty text included). *)
Theorem split_tokens (s : string) :
  split s <> []
  /\ Forall (fun token => all_chars not_separator token = true) (split s)
  /\ (all_chars not_separator s = true -> split s = [s]).
Proof.
  unfold split.
  destruct (split_go_tokens s false "" eq_refl) as [Hne Hall].
  conjs; [ exact Hne | exact Hall | ].
  intros Hs. apply (split_go_whole s "" Hs).
Qed.

Lemma split_tokens_witness :
  split "0,0  100 50" = [ "0"; "0"; "100"; "50" ] /\ split "100" = [ "100" ].
Proof.
  split; [ vm_compute; reflexivity | ].
  apply (split_tokens "100"). reflexivity.
Defined.

Lemma result_shapes_witness :
  getSvgDimensions "<svg xmlns='x'><rect/></svg>"
  = NoneFound None warning.
Proof.
  apply (proj2 (result_shapes "<svg xmlns='x'><rect/></svg>")
           "<svg xmlns='x'>" eq_refl).
  vm_compute. auto.
Defined.

End SvgResults.

(** ** svg_convert.sh *)

Module SvgConvertExtra.
Import SvgConvert.

Lemma strip_suffix_unfold suffix s :
  strip_suffix suffix s =
    if String.eqb s suffix then Some EmptyString
    else
      match s with
      | EmptyString => None
      | String c s' =>
          match strip_suffix suffix s' with
          | Some stem => Some (String c stem)
          | None => None
          end
      end.
Proof. destruct s; reflexivity. Qed.

Lemma strip_suffix_sound suffix s : forall stem,
  strip_suffix suffix s = Some stem -> s = stem +:+ suffix.
Proof.
  induction s as [ | c s IH ]; intros stem; rewrite strip_suffix_unfold.
  - destruct (String.eqb_spec "" suffix) as [<- | _]; [ | discriminate ].
    intros [= <-]. reflexivity.
  - destruct (String.eqb_spec (String c s) suffix) as [<- | _].
    + intros [= <-]. reflexivity.
    + destruct (strip_suffix suffix s) as [stem' | ] eqn:Hs; [ | discriminate ].
      intros [= <-]. rewrite (IH stem' eq_refl) at 1. reflexivity.
Qed.

Section WithTools.
Context {Fs : Type}.
Variable is_file : string -> Fs -> bool.
Variable svg2tikz : string -> string -> Fs -> nat * Fs.

Lemma convert_calls file st :
  exists new,
    calls (convert is_file svg2tikz file st) = (calls st ++ new)%list
    /\ Forall (well_named [file]) new
    /\ snd <$> new `sublist_of` [file].
Proof.
  unfold convert.
  destruct (negb (is_file file (files st))).
  { exists []. simpl. rewrite app_nil_r.
    conjs; [ reflexivity | constructor | apply sublist_nil_l ]. }
  destruct (strip_suffix ".svg" file) as [stem | ] eqn:Hstem.
  2:{ exists []. simpl. rewrite app_nil_r.
      conjs; [ reflexivity | constructor | apply sublist_nil_l ]. }
  simpl. destruct (svg2tikz (stem +:+ ".tex") file (files st)) as [status fs].
  exists [(stem +:+ ".tex", file)].
  conjs.
  - destruct (negb (status =? 0)%nat); reflexivity.
  - constructor; [ | constructor ]. split; [ left | ].
    exists stem. split; [ apply strip_suffix_sound, Hstem | reflexivity ].
  - reflexivity.
Qed.

Lemma well_named_more args args' call :
  (forall f, f ∈ args -> f ∈ args') ->
  well_named args call -> well_named args' call.
Proof. intros Hsub [Hin Hstem]. split; auto. Qed.

Lemma loop_calls args : forall st,
  exists new,
    calls (foldl (fun st file => convert is_file svg2tikz file st) st args)
    = (calls st ++ new)%list
    /\ Forall (well_named args) new
    /\ snd <$> new `sublist_of` args.
Proof.
  induction args as [ | file args IH ]; intros st; simpl.
  - exists []. rewrite app_nil_r.
    conjs; [ reflexivity | constructor | constructor ].
  - destruct (convert_calls file st) as (new1 & Hc1 & Hn1 & Hs1).
    destruct (IH (convert is_file svg2tikz file st))
      as (new2 & Hc2 & Hn2 & Hs2).
    exists (new1 ++ new2)%list. conjs.
    + rewrite Hc2, Hc1, <- app_assoc. reflexivity.
    + apply Forall_app. split.
      * eapply Forall_impl; [ exact Hn1 | ].
        intros call. apply well_named_more.
        intros f Hf. apply list_elem_of_singleton in Hf as ->. left.
      * eapply Forall_impl; [ exact Hn2 | ].
        intros call. apply well_named_more. intros f Hf. right. exact Hf.
    + rewrite fmap_app.
      change (file :: args) with ([file] ++ args)%list.
      apply sublist_app; assumption.
Qed.

End WithTools.

(** The shell script calls the converter only on arguments that end in
    [.svg], in the order of the arguments, each with the output file of
    the same name ending in [.tex], which is never the input file.
    Without arguments it calls nothing and exits with status 1; with
    arguments it exits with status 0, whatever the converter returned. *)
Theorem svg_convert_calls {Fs : Type} (is_file : string -> Fs -> bool)
    (svg2tikz : string -> string -> Fs -> nat * Fs)
    (script : string) (args : list string) (fs : Fs) :
  let result := svg_convert is_file svg2tikz script args fs in
  Forall (fun call =>
            snd call ∈ args
            /\ (exists stem, snd call = stem +:+ ".svg"
                             /\ fst call = stem +:+ ".tex")
            /\ fst call <> snd call)
    (calls (snd result))
  /\ snd <$> calls (snd result) `sublist_of` args
  /\ (args = [] -> fst result = 1%nat /\ calls (snd result) = [])
  /\ (args <> [] -> fst result = 0%nat).
Proof.
  intros result. subst result. unfold svg_convert.
  destruct args as [ | file args ].
  - simpl. conjs; auto; contradiction.
  - destruct (loop_calls is_file svg2tikz (file :: args) (State [] [] fs))
      as (new & Hc & Hn & Hs).
    cbn [fst snd echo calls]. rewrite Hc. simpl.
    conjs; auto; try discriminate.
    eapply Forall_impl; [ exact Hn | ].
    intros [out input] [Hin (stem & Hi & Ho)]. simpl in *.
    conjs; eauto. subst. intros Heq.
    apply String.app_inj in Heq. discriminate Heq.
Qed.

Lemma svg_convert_calls_witness :
  svg_convert (fun _ (_ : unit) => true) (fun _ _ fs => (1%nat, fs))
    "svg_convert.sh" [ "a.svg"; "notes.txt"; "b.svg" ] tt
  = (0%nat,
     State [ Converting "a.svg" "a.tex"; ErrNotConverted "a.svg";
             WarnNotSvg "notes.txt";
             Converting "b.svg" "b.tex"; ErrNotConverted "b.svg"; Done ]
       [ ("a.tex", "a.svg"); ("b.tex", "b.svg") ] tt)
  /\ fst (svg_convert (fun _ (_ : unit) => true) (fun _ _ fs => (1%nat, fs))
            "svg_convert.sh" [ "a.svg"; "notes.txt"; "b.svg" ] tt) = 0%nat.
Proof.
  split; [ vm_compute; reflexivity | ].
  apply (svg_convert_calls (fun _ (_ : unit) => true)
           (fun _ _ fs => (1%nat, fs)) "svg_convert.sh"
           [ "a.svg"; "notes.txt"; "b.svg" ] tt).
  discriminate.
Defined.

End SvgConvertExtra.
